(** * Clear-sky day filter for photovoltaic monitoring data

    A shallow embedding of [ClearSkyDayFinder.py] and the properties of its
    day-classification pipeline.

    Conventions of the embedding.
    - A polars frame is a list of rows; a row is a record of the columns the
      code keeps ([time], [power], the id column, later [day_time], [Corr]).
    - [time] is a UTC timestamp in microseconds since the epoch, the
      resolution of the Python [datetime] values from which the code
      rebuilds the frame of every window and of every day.
    - Float columns are exact rationals ([Q]); a float that may be NaN
      (the median of an empty array, a correlation) has type [float].
    - A Python exception is a [Raise] in the [result] monad.
    - [sort] is stable and [group_by] delivers its groups in order of first
      appearance; on the frames of this program, which are sorted on the key
      before they are grouped, that is the order of the key. *)

From Stdlib Require Import String ZArith QArith Qabs List Bool Lia Lqa.
From Stdlib Require Import Permutation.
From Stdlib Require Import Reals Qreals Lra.
From Stdlib Require Import Sorted Setoid Morphisms.
Import ListNotations.

Local Open Scope Z_scope.

(** ** Exceptions *)

Inductive exn : Type :=
| TypeError
| IndexError
| ValueError.

Inductive result (A : Type) : Type :=
| Ok (a : A)
| Raise (e : exn).

Arguments Ok {A} a.
Arguments Raise {A} e.

Definition bind {A B : Type} (m : result A) (k : A -> result B) : result B :=
  match m with
  | Ok a => k a
  | Raise e => Raise e
  end.

Notation "x <- m ;; k" := (bind m (fun x => k))
  (at level 61, m at next level, right associativity).
Notation "' p <- m ;; k" := (bind m (fun x => match x with p => k end))
  (at level 61, p pattern, m at next level, right associativity).

(** ** Floats that may be NaN *)

Inductive float : Type :=
| NaN
| Fin (q : Q).

(** Every comparison with NaN is false. *)
Definition fle (f : float) (q : Q) : bool :=
  match f with
  | NaN => false
  | Fin x => Qle_bool x q
  end.

Definition fgt (f : float) (q : Q) : bool :=
  match f with
  | NaN => false
  | Fin x => negb (Qle_bool x q)
  end.

Definition fmul (f : float) (q : Q) : float :=
  match f with
  | NaN => NaN
  | Fin x => Fin (x * q)
  end.

(** ** Frames *)

(** A row of [data], [module_data], [month_data] or of a day before
    [add_daytime]: the three columns rebuilt at lines 195-197 and 207-209. *)
Record sample : Type := mkSample {
  time : Z;
  power : Q;
  module_id : Z
}.

(** A row that carries the [day_time] column as well. *)
Record timed : Type := mkTimed {
  base : sample;
  day_time : Q
}.

Inductive frame : Type :=
| Plain (rows : list sample)
| WithDayTime (rows : list timed).

(** ** Timestamps *)

Definition us_per_second : Z := 1000000.
Definition us_per_minute : Z := 60 * us_per_second.
Definition us_per_hour : Z := 3600 * us_per_second.
Definition us_per_day : Z := 86400 * us_per_second.

Definition dt_date (t : Z) : Z := t / us_per_day.
Definition dt_hour (t : Z) : Z := (t / us_per_hour) mod 24.
Definition dt_minute (t : Z) : Z := (t / us_per_minute) mod 60.
Definition dt_second (t : Z) : Z := (t / us_per_second) mod 60.

(** The expression aliased to ["day_time"] in [add_daytime]. *)
Definition day_time_of (t : Z) : Q :=
  (inject_Z (dt_hour t) * 60 + inject_Z (dt_minute t)
   + inject_Z (dt_second t) / 60)%Q.

Definition stamp (s : sample) : timed := mkTimed s (day_time_of (time s)).

(** [add_daytime]: adds the column unless the frame already has it. *)
Definition add_daytime (day_data : frame) : list timed :=
  match day_data with
  | Plain rows => map stamp rows
  | WithDayTime rows => rows
  end.

(** ** Sorting *)

Section Sorting.
Context {A : Type}.
Variable leb : A -> A -> bool.

Fixpoint insert (a : A) (l : list A) : list A :=
  match l with
  | [] => [a]
  | b :: l' => if leb a b then a :: l else b :: insert a l'
  end.

Fixpoint sort (l : list A) : list A :=
  match l with
  | [] => []
  | a :: l' => insert a (sort l')
  end.
End Sorting.

Definition by_day_time (r1 r2 : timed) : bool :=
  Qle_bool (day_time r1) (day_time r2).

Definition by_time (s1 s2 : sample) : bool := time s1 <=? time s2.

(** ** [get_frequence] *)

(** [a[1:] - a[:-1]] *)
Definition diffs (a : list Q) : list Q :=
  map (fun p => (snd p - fst p)%Q) (combine a (tl a)).

Definition sum (l : list Q) : Q := fold_right Qplus 0%Q l.

(** [np.median]: NaN on an empty array, the middle element of the sorted
    array, or the mean of the two middle elements. *)
Definition median (a : list Q) : float :=
  let s := sort Qle_bool a in
  let n := length s in
  match n with
  | O => NaN
  | _ =>
      if Nat.odd n then Fin (nth (n / 2) s 0%Q)
      else Fin ((nth (n / 2 - 1) s 0 + nth (n / 2) s 0) / 2)%Q
  end.

Definition get_frequence (id_data : frame) : float :=
  let id_data := sort by_day_time (add_daytime id_data) in
  median (diffs (map day_time id_data)).

(** ** Configuration: the arguments of [get_clearskydays] *)

Record config : Type := mkConfig {
  comparison_intervall : Z;              (* length of a window, in us *)
  prep_smooth_kernal : option positive;
  smooth_kernal : option positive;
  percentil : Q;
  first_last_limit : Q;
  min_number_of_datapoints : option Z;
  hole_size_threshold : option Q;
  corr_threshold : Q;
  max_dist : option Q;
  n_max_exceeds : option Z;
  use_column_id : bool                   (* false: [column_id == None] *)
}.

Definition set_min_number_of_datapoints (v : option Z) (c : config) : config :=
  mkConfig (comparison_intervall c) (prep_smooth_kernal c) (smooth_kernal c)
    (percentil c) (first_last_limit c) v (hole_size_threshold c)
    (corr_threshold c) (max_dist c) (n_max_exceeds c) (use_column_id c).

Definition set_prep_smooth_kernal (v : option positive) (c : config) : config :=
  mkConfig (comparison_intervall c) v (smooth_kernal c)
    (percentil c) (first_last_limit c) (min_number_of_datapoints c)
    (hole_size_threshold c) (corr_threshold c) (max_dist c) (n_max_exceeds c)
    (use_column_id c).

Definition set_smooth_kernal (v : option positive) (c : config) : config :=
  mkConfig (comparison_intervall c) (prep_smooth_kernal c) v
    (percentil c) (first_last_limit c) (min_number_of_datapoints c)
    (hole_size_threshold c) (corr_threshold c) (max_dist c) (n_max_exceeds c)
    (use_column_id c).

Definition set_hole_size_threshold (v : option Q) (c : config) : config :=
  mkConfig (comparison_intervall c) (prep_smooth_kernal c) (smooth_kernal c)
    (percentil c) (first_last_limit c) (min_number_of_datapoints c) v
    (corr_threshold c) (max_dist c) (n_max_exceeds c) (use_column_id c).

Definition set_max_dist (v : option Q) (c : config) : config :=
  mkConfig (comparison_intervall c) (prep_smooth_kernal c) (smooth_kernal c)
    (percentil c) (first_last_limit c) (min_number_of_datapoints c)
    (hole_size_threshold c) (corr_threshold c) v (n_max_exceeds c)
    (use_column_id c).

Definition set_n_max_exceeds (v : option Z) (c : config) : config :=
  mkConfig (comparison_intervall c) (prep_smooth_kernal c) (smooth_kernal c)
    (percentil c) (first_last_limit c) (min_number_of_datapoints c)
    (hole_size_threshold c) (corr_threshold c) (max_dist c) v
    (use_column_id c).

Definition is_None {A : Type} (o : option A) : bool :=
  match o with
  | None => true
  | Some _ => false
  end.

(** ** SET DEFAULTS (lines 113-172) *)

(** The value compared with the table: [get_frequence(...) * 60]. *)
Definition frequence_of (module_data : list sample) : float :=
  fmul (get_frequence (Plain module_data)) 60.

Definition default_min_number_of_datapoints (frequence : float) (c : config)
  : config :=
  if is_None (min_number_of_datapoints c) then
    if fle frequence 1 then set_min_number_of_datapoints (Some 300) c
    else if fgt frequence 1 && fle frequence 5 then
      set_min_number_of_datapoints (Some 100) c
    else if fgt frequence 5 && fle frequence 10 then
      set_min_number_of_datapoints (Some 70) c
    else if fgt frequence 10 && fle frequence 15 then
      set_min_number_of_datapoints (Some 45) c
    else set_min_number_of_datapoints (Some 20) c
  else c.

Definition default_prep_smooth_kernal (frequence : float) (c : config)
  : config :=
  if is_None (prep_smooth_kernal c) then
    if fle frequence 1 then set_prep_smooth_kernal (Some 10%positive) c
    else if fgt frequence 1 && fle frequence 5 then
      set_prep_smooth_kernal (Some 5%positive) c
    else set_prep_smooth_kernal (Some 2%positive) c
  else c.

Definition default_smooth_kernal (frequence : float) (c : config) : config :=
  if is_None (smooth_kernal c) then
    if fle frequence 1 then set_smooth_kernal (Some 60%positive) c
    else if fgt frequence 1 && fle frequence 5 then
      set_smooth_kernal (Some 30%positive) c
    else if fgt frequence 5 && fle frequence 10 then
      set_smooth_kernal (Some 15%positive) c
    else if fgt frequence 10 && fle frequence 15 then
      set_smooth_kernal (Some 10%positive) c
    else set_smooth_kernal (Some 2%positive) c
  else c.

(** The last branch assigns [min_number_of_datapoints] (line 156). *)
Definition default_hole_size_threshold (frequence : float) (c : config)
  : config :=
  if is_None (hole_size_threshold c) then
    if fle frequence 1 then set_hole_size_threshold (Some 30%Q) c
    else if fgt frequence 1 && fle frequence 5 then
      set_hole_size_threshold (Some 30%Q) c
    else if fgt frequence 5 && fle frequence 10 then
      set_hole_size_threshold (Some 50%Q) c
    else if fgt frequence 10 && fle frequence 15 then
      set_hole_size_threshold (Some 60%Q) c
    else set_min_number_of_datapoints (Some 120) c
  else c.

Definition default_n_max_exceeds (frequence : float) (c : config) : config :=
  if is_None (n_max_exceeds c) then
    if fle frequence 1 then set_n_max_exceeds (Some 300) c
    else if fgt frequence 1 && fle frequence 5 then
      set_n_max_exceeds (Some 100) c
    else if fgt frequence 5 && fle frequence 10 then
      set_n_max_exceeds (Some 70) c
    else if fgt frequence 10 && fle frequence 15 then
      set_n_max_exceeds (Some 45) c
    else set_n_max_exceeds (Some 20) c
  else c.

Definition Qmaxb (a b : Q) : Q := if Qle_bool a b then b else a.

(** [np.max]: raises on an empty array. *)
Definition np_max (a : list Q) : result Q :=
  match a with
  | [] => Raise ValueError
  | x :: a' => Ok (fold_left Qmaxb a' x)
  end.

Definition default_max_dist (module_data : list sample) (c : config)
  : result config :=
  if is_None (max_dist c) then
    m <- np_max (map power module_data) ;;
    Ok (set_max_dist (Some (m * (3 # 10))%Q) c)
  else Ok c.

(** The arguments are local variables of [get_clearskydays]: what one
    iteration of the stream loop assigns is what the next one reads. *)
Definition set_defaults (c : config) (module_data : list sample)
  : result config :=
  let frequence := frequence_of module_data in
  let c := default_min_number_of_datapoints frequence c in
  let c := default_prep_smooth_kernal frequence c in
  let c := default_smooth_kernal frequence c in
  let c := default_hole_size_threshold frequence c in
  let c := default_n_max_exceeds frequence c in
  default_max_dist module_data c.

(** ** Grouping *)

Section Grouping.
Context {A K : Type}.
Variable key : A -> K.
Variable eqb : K -> K -> bool.

(** The distinct keys, in order of first appearance. *)
Fixpoint distinct (ks : list K) : list K :=
  match ks with
  | [] => []
  | k :: ks' => k :: filter (fun k' => negb (eqb k k')) (distinct ks')
  end.

Definition members (k : K) (l : list A) : list A :=
  filter (fun a => eqb k (key a)) l.

(** One group per distinct key; the rows of a group keep their order. *)
Definition group_by (l : list A) : list (K * list A) :=
  map (fun k => (k, members k l)) (distinct (map key l)).
End Grouping.

(** [partition_by(column_id)] *)
Definition partition_by (data : list sample) : list (list sample) :=
  map snd (group_by module_id Z.eqb data).

(** The window of [group_by_dynamic(every=e, closed="right")] that holds
    timestamp [t]: the [k] with [k * e < t <= (k + 1) * e]. *)
Definition window_of (every : Z) (t : Z) : Z := (t - 1) / every.

Definition group_by_dynamic (every : Z) (module_data : list sample)
  : list (list sample) :=
  map snd (group_by (fun s => window_of every (time s)) Z.eqb module_data).

(** [group_by("date")] after [dt.date()] *)
Definition group_by_date (month_data : list sample) : list (list sample) :=
  map snd (group_by (fun s => dt_date (time s)) Z.eqb month_data).

(** ** [get_clearskytemplate] *)

(** A column with nulls. *)
Definition column : Type := list (option Q).

Fixpoint sum_valid (l : column) : option Q :=
  match l with
  | [] => Some 0%Q
  | None :: _ => None
  | Some x :: l' => option_map (Qplus x) (sum_valid l')
  end.

(** [rolling_mean(window_size=w, center=True)]: the window of row [i] is
    [i - (w - ceil(w/2)), i + ceil(w/2)); the result is null unless the
    window lies inside the column and holds [w] valid values. *)
Definition rolling_mean (window_size : positive) (col : column) : column :=
  let w := Pos.to_nat window_size in
  let right := ((w + 1) / 2)%nat in
  let left := (w - right)%nat in
  map (fun i =>
         if ((left <=? i) && (i + right <=? length col))%nat then
           option_map (fun s => (s / inject_Z (Z.pos window_size))%Q)
                      (sum_valid (firstn w (skipn (i - left) col)))
         else None)
      (seq 0 (length col)).

(** [max()] of a group: nulls are skipped. *)
Definition max_valid (l : column) : option Q :=
  fold_left (fun acc x =>
               match acc, x with
               | Some a, Some b => Some (Qmaxb a b)
               | None, _ => x
               | _, None => acc
               end) l None.

(** A row of the template: [day_time], the corrected envelope (column
    [power]) and the template value (column [tmp_power]). *)
Record template_row : Type := mkTemplateRow {
  t_day_time : Q;
  t_power : option Q;
  tmp_power : option Q
}.

(** Lines 292-294: the pooled rows of the window in [day_time] order, with
    the power column after the first smoothing pass. *)
Definition pooled (prep_smooth_kernal : option positive) (id_data : frame)
  : list (Q * option Q) :=
  let cst := sort by_day_time (add_daytime id_data) in
  let col := map (fun r => Some (power (base r))) cst in
  combine (map day_time cst)
          (match prep_smooth_kernal with
           | Some w => rolling_mean w col
           | None => col
           end).

(** Lines 295-296: the bucket maxima, times [percentil]. *)
Definition envelope (percentil : Q) (prep_smooth_kernal : option positive)
  (id_data : frame) : list (Q * option Q) :=
  let cst := pooled prep_smooth_kernal id_data in
  let cst := map (fun g => (fst g, max_valid (map snd (snd g))))
                 (group_by fst Qeq_bool cst) in
  map (fun r => (fst r, option_map (fun p => (p * percentil)%Q) (snd r))) cst.

Definition get_clearskytemplate (id_data : frame) (percentil : Q)
  (prep_smooth_kernal smooth_kernal : option positive) : list template_row :=
  let cst := envelope percentil prep_smooth_kernal id_data in
  let tmp := match smooth_kernal with
             | Some w => rolling_mean w (map snd cst)
             | None => map snd cst
             end in
  map (fun p => mkTemplateRow (fst (fst p)) (snd (fst p)) (snd p))
      (combine cst tmp).

(** ** Alignment: [join_asof(..., strategy="backward").drop_nulls()] *)

(** The last template row whose key does not exceed [k]. *)
Definition asof_backward (cst : list template_row) (k : Q)
  : option template_row :=
  fold_left (fun acc r => if Qle_bool (t_day_time r) k then Some r else acc)
            cst None.

Record joined_row : Type := mkJoined {
  j_row : timed;
  j_power_right : option Q;
  j_tmp_power : option Q
}.

Definition join_asof (day_data : list timed) (cst : list template_row)
  : list joined_row :=
  map (fun r =>
         match asof_backward cst (day_time r) with
         | Some t => mkJoined r (t_power t) (tmp_power t)
         | None => mkJoined r None None
         end) day_data.

Record comp_row : Type := mkComp {
  c_row : timed;
  c_power_right : Q;
  c_tmp_power : Q
}.

Definition drop_nulls (j : list joined_row) : list comp_row :=
  flat_map (fun r =>
              match j_power_right r, j_tmp_power r with
              | Some p, Some t => [mkComp (j_row r) p t]
              | _, _ => []
              end) j.

Definition c_power (r : comp_row) : Q := power (base (c_row r)).

(** ** Correlation *)

(** A correlation coefficient: NaN, or the real number
    [cxy / sqrt (cxx * cyy)], kept as its numerator and the square of its
    denominator. *)
Inductive corr : Type :=
| CorrNaN
| Rho (cxy : Q) (cxx_cyy : Q).

Definition mean (x : list Q) : Q :=
  (sum x / inject_Z (Z.of_nat (length x)))%Q.

Definition centered (x : list Q) : list Q :=
  map (fun v => (v - mean x)%Q) x.

Definition dot (x y : list Q) : Q :=
  sum (map (fun p => (fst p * snd p)%Q) (combine x y)).

(** An entry of [np.cov]. *)
Definition cov (x y : list Q) : Q :=
  (dot (centered x) (centered y) / (inject_Z (Z.of_nat (length x)) - 1))%Q.

(** [np.corrcoef(x, y)[0, 1]]: NaN for fewer than two observations
    (no degree of freedom) and for a constant argument (0/0). *)
Definition corrcoef (x y : list Q) : corr :=
  if (length x <? 2)%nat then CorrNaN
  else
    let d := (cov x x * cov y y)%Q in
    if Qeq_bool d 0 then CorrNaN else Rho (cov x y) d.

Definition Qlt_bool (a b : Q) : bool := negb (Qle_bool b a).

(** [corr > t]; false for NaN. *)
Definition corr_gt (r : corr) (t : Q) : bool :=
  match r with
  | CorrNaN => false
  | Rho a d =>
      if Qle_bool 0 t then Qlt_bool 0 a && Qlt_bool (t * t * d) (a * a)
      else Qle_bool 0 a || Qlt_bool (a * a) (t * t * d)
  end.

(** The real number a correlation coefficient stands for. *)
Definition corr_value (r : corr) : option R :=
  match r with
  | CorrNaN => None
  | Rho a d => Some (Q2R a / sqrt (Q2R d))%R
  end.

(** ** The checks on a day *)

Definition _bad_holes_check (id_data : frame) (hole_size_threshold : option Q)
  : result (bool * option Q) :=
  let array := map day_time (sort by_day_time (add_daytime id_data)) in
  if (4 <? length array)%nat then
    max_hole <- np_max (diffs array) ;;
    match hole_size_threshold with
    | None => Raise TypeError
    | Some thr =>
        if Qlt_bool max_hole thr then Ok (true, Some max_hole)
        else Ok (false, Some max_hole)
    end
  else Ok (false, None).

Definition exceeds (comp_data : list comp_row) (max_dist : Q) : list Q :=
  filter (fun d => Qlt_bool max_dist d)
         (map (fun r => Qabs (c_power r - c_tmp_power r)) comp_data).

Definition _check_distance (comp_data : list comp_row) (max_dist : Q)
  (n_max_exceeds : Z) : bool :=
  if Z.of_nat (length (exceeds comp_data max_dist)) >? n_max_exceeds
  then false else true.

(** ** The day loop (lines 211-246) *)

(** A row of the result: the day's row and the column [Corr]. *)
Record clear_sky_row : Type := mkClearSky {
  row : timed;
  Corr : corr
}.

(** Reading an argument that is still [None] in a comparison raises. *)
Definition required {A : Type} (o : option A) : result A :=
  match o with
  | Some a => Ok a
  | None => Raise TypeError
  end.

(** [a[0]] and [a[-1]] *)
Definition first_item {A : Type} (a : list A) : result A :=
  match a with
  | x :: _ => Ok x
  | [] => Raise IndexError
  end.

Definition last_item {A : Type} (a : list A) : result A :=
  first_item (rev a).

Definition compare_day (day_data : list timed) (cst : list template_row)
  : list comp_row :=
  drop_nulls (join_asof day_data cst).

(** The verdict on one day: the frame appended to [clear_sky_frame], if
    any. *)
Definition evaluate_day (c : config) (cst : list template_row)
  (day : list sample) : result (option (list clear_sky_row)) :=
  min_points <- required (min_number_of_datapoints c) ;;
  if Z.of_nat (length day) >? min_points then
    let day_data := sort by_day_time (add_daytime (Plain day)) in
    first <- first_item day_data ;;
    last <- last_item day_data ;;
    let first_value_check :=
      Qle_bool (power (base first)) (first_last_limit c) in
    let last_value_check :=
      Qle_bool (power (base last)) (first_last_limit c) in
    if first_value_check && last_value_check then
      ' (check_hole, _) <-
        _bad_holes_check (WithDayTime day_data) (hole_size_threshold c) ;;
      if (check_hole : bool) then
        let comp_data := compare_day day_data cst in
        let corr := corrcoef (map c_power comp_data)
                             (map c_tmp_power comp_data) in
        if corr_gt corr (corr_threshold c) then
          max_dist <- required (max_dist c) ;;
          n_max_exceeds <- required (n_max_exceeds c) ;;
          if _check_distance comp_data max_dist n_max_exceeds then
            Ok (Some (map (fun r => mkClearSky r corr) day_data))
          else Ok None
        else Ok None
      else Ok None
    else Ok None
  else Ok None.

(** ** The loops of [get_clearskydays] *)

Fixpoint for_each {A S : Type} (body : A -> S -> result S) (l : list A)
  (s : S) : result S :=
  match l with
  | [] => Ok s
  | a :: l' => s' <- body a s ;; for_each body l' s'
  end.

(** [clear_sky_frame] is kept as the list of the day frames concatenated
    so far; the returned frame is their concatenation. *)
Definition frames : Type := list (list clear_sky_row).

Definition day_body (c : config) (cst : list template_row)
  (day : list sample) (clear_sky_frame : frames) : result frames :=
  v <- evaluate_day c cst day ;;
  match v with
  | Some day_data => Ok (clear_sky_frame ++ [day_data])
  | None => Ok clear_sky_frame
  end.

Definition window_body (c : config) (month_data : list sample)
  (clear_sky_frame : frames) : result frames :=
  let cst := get_clearskytemplate (Plain month_data) (percentil c)
               (prep_smooth_kernal c) (smooth_kernal c) in
  for_each (day_body c cst) (group_by_date month_data) clear_sky_frame.

Definition windows (c : config) (module_data : list sample)
  : list (list sample) :=
  group_by_dynamic (comparison_intervall c) (sort by_time module_data).

Definition stream_body (module_data : list sample) (st : config * frames)
  : result (config * frames) :=
  c <- set_defaults (fst st) module_data ;;
  clear_sky_frame <- for_each (window_body c) (windows c module_data) (snd st) ;;
  Ok (c, clear_sky_frame).

(** Lines 107-109: without an id column every row gets the same id. *)
Definition with_default_id (c : config) (data : list sample) : list sample :=
  if use_column_id c then data
  else map (fun s => mkSample (time s) (power s) 0) data.

Definition clear_sky_days (c : config) (data : list sample)
  : result (config * frames) :=
  for_each stream_body (partition_by (with_default_id c data)) (c, []).

Definition get_clearskydays (c : config) (data : list sample)
  : result (list clear_sky_row) :=
  st <- clear_sky_days c data ;;
  Ok (concat (snd st)).

(** ** The frames as named columns *)




(** ** The partition into days *)

(** The (stream, window, date) groups the loops visit, in order. *)
Definition days_of_stream (c : config) (module_data : list sample)
  : list (list sample) :=
  flat_map group_by_date (windows c module_data).

Definition days_of (c : config) (data : list sample) : list (list sample) :=
  flat_map (days_of_stream c) (partition_by (with_default_id c data)).



(** The day passed the quality gate: the three checks of lines 211-221. *)
Definition gated (c : config) (day : list sample) : Prop :=
  let day_data := sort by_day_time (add_daytime (Plain day)) in
  exists min_points first last hole_size,
    min_number_of_datapoints c = Some min_points /\
    Z.of_nat (length day) > min_points /\
    first_item day_data = Ok first /\
    last_item day_data = Ok last /\
    (power (base first) <= first_last_limit c)%Q /\
    (power (base last) <= first_last_limit c)%Q /\
    _bad_holes_check (WithDayTime day_data) (hole_size_threshold c)
    = Ok (true, hole_size).

(** The day reaches the gap check of line 218: it has more than
    [min_points] samples and starts and ends within [limit] (lines
    211-217). *)
Definition reaches_gap_check (min_points : Z) (limit : Q) (day : list sample)
  : Prop :=
  let day_data := sort by_day_time (add_daytime (Plain day)) in
  exists first last,
    Z.of_nat (length day) > min_points /\
    first_item day_data = Ok first /\
    last_item day_data = Ok last /\
    (power (base first) <= limit)%Q /\
    (power (base last) <= limit)%Q.



(** [picks V l rs]: going through [l] in order, [rs] are the results [V]
    grants, the other elements being passed over. *)
Inductive picks {A B : Type} (V : A -> B -> Prop) : list A -> list B -> Prop :=
| picks_nil : picks V [] []
| picks_skip (a : A) (l : list A) (rs : list B) :
    picks V l rs -> picks V (a :: l) rs
| picks_take (a : A) (l : list A) (r : B) (rs : list B) :
    V a r -> picks V l rs -> picks V (a :: l) (r :: rs).

(** Some configuration and template accept the day with this frame. *)
Definition accepts (day : list sample) (day_data : list clear_sky_row) : Prop :=
  exists c cst, evaluate_day c cst day = Ok (Some day_data).

(** ** Sample inputs *)

Definition at_time (d h m s : Z) : Z :=
  (((d * 24 + h) * 60 + m) * 60 + s) * us_per_second.

(** Every tunable left at [None]; the other arguments at their defaults. *)
Definition unset : config :=
  mkConfig (30 * us_per_day) None None (9 # 10) (1 # 10) None None
           (98 # 100) None None true.

(** A configuration with every tunable given and smoothing windows of one
    row. *)
Definition tuned (every : Z) : config :=
  mkConfig every (Some 1%positive) (Some 1%positive) (9 # 10) (1 # 10)
           (Some 4) (Some 150%Q) (98 # 100) (Some 40%Q) (Some 50) true.

Definition five_minute_stream : list sample :=
  [mkSample (at_time 0 0 0 0) 0 1; mkSample (at_time 0 0 5 0) 0 1;
   mkSample (at_time 0 0 10 0) 0 1].


Definition quarter_minute_stream : list sample :=
  [mkSample (at_time 0 0 0 0) 0 1; mkSample (at_time 0 0 0 15) 0 1;
   mkSample (at_time 0 0 0 30) 0 1].

Definition second_stream : list sample :=
  [mkSample (at_time 0 0 0 0) 0 2; mkSample (at_time 0 0 5 0) 0 2;
   mkSample (at_time 0 0 10 0) 0 2].

(** A day sampled every two hours from 06:00 to 18:00. *)
Definition bell_day (d id : Z) : list sample :=
  [mkSample (at_time d 6 0 0) 0 id; mkSample (at_time d 8 0 0) 10 id;
   mkSample (at_time d 10 0 0) 20 id; mkSample (at_time d 12 0 0) 30 id;
   mkSample (at_time d 14 0 0) 20 id; mkSample (at_time d 16 0 0) 10 id;
   mkSample (at_time d 18 0 0) 0 id].

(** A date with a bell before noon and a bell after noon. *)
Definition two_bells (d id : Z) : list sample :=
  [mkSample (at_time d 1 0 0) 0 id; mkSample (at_time d 3 0 0) 10 id;
   mkSample (at_time d 5 0 0) 20 id; mkSample (at_time d 7 0 0) 10 id;
   mkSample (at_time d 9 0 0) 0 id; mkSample (at_time d 13 0 0) 0 id;
   mkSample (at_time d 15 0 0) 10 id; mkSample (at_time d 17 0 0) 20 id;
   mkSample (at_time d 19 0 0) 10 id; mkSample (at_time d 21 0 0) 0 id].

(** Two samples within the same second. *)
Definition same_second_day : list sample :=
  [mkSample (at_time 0 12 0 0) 10 1;
   mkSample (at_time 0 12 0 0 + 500000) 20 1].

(** * Properties *)

Local Open Scope Q_scope.

(** ** Default resolution *)


Lemma fle_Fin_false (x q : Q) : q < x -> fle (Fin x) q = false.
Proof.
  intros H. simpl. destruct (Qle_bool x q) eqn:E; [|reflexivity].
  apply Qle_bool_iff in E. exfalso. apply (Qlt_not_le _ _ H E).
Qed.




Lemma default_max_dist_ok (m : list sample) (c : config) :
  m <> [] ->
  exists c', default_max_dist m c = Ok c' /\
    min_number_of_datapoints c' = min_number_of_datapoints c /\
    prep_smooth_kernal c' = prep_smooth_kernal c /\
    smooth_kernal c' = smooth_kernal c /\
    hole_size_threshold c' = hole_size_threshold c /\
    n_max_exceeds c' = n_max_exceeds c.
Proof.
  intros Hm. unfold default_max_dist.
  destruct (is_None (max_dist c)).
  - destruct m as [|s m]; [congruence|]. simpl. eexists. split; [reflexivity|].
    now repeat split.
  - eexists. split; [reflexivity|]. now repeat split.
Qed.





Ltac by_cases_of_defaults :=
  repeat match goal with
         | |- context [if ?b then _ else _] => destruct b
         end;
  reflexivity.

Lemma hole_after_min (f : float) (c : config) :
  hole_size_threshold (default_min_number_of_datapoints f c)
  = hole_size_threshold c.
Proof. unfold default_min_number_of_datapoints. by_cases_of_defaults. Qed.

Lemma hole_after_prep (f : float) (c : config) :
  hole_size_threshold (default_prep_smooth_kernal f c) = hole_size_threshold c.
Proof. unfold default_prep_smooth_kernal. by_cases_of_defaults. Qed.

Lemma hole_after_smooth (f : float) (c : config) :
  hole_size_threshold (default_smooth_kernal f c) = hole_size_threshold c.
Proof. unfold default_smooth_kernal. by_cases_of_defaults. Qed.

Lemma hole_after_exceeds (f : float) (c : config) :
  hole_size_threshold (default_n_max_exceeds f c) = hole_size_threshold c.
Proof. unfold default_n_max_exceeds. by_cases_of_defaults. Qed.

Lemma min_after_exceeds (f : float) (c : config) :
  min_number_of_datapoints (default_n_max_exceeds f c)
  = min_number_of_datapoints c.
Proof. unfold default_n_max_exceeds. by_cases_of_defaults. Qed.

(** The last branch of the gap-threshold block. *)
Lemma hole_block_last_bucket (f : Q) (c : config) :
  hole_size_threshold c = None -> 15 < f ->
  default_hole_size_threshold (Fin f) c
  = set_min_number_of_datapoints (Some 120%Z) c.
Proof.
  intros H Hf. unfold default_hole_size_threshold. rewrite H. cbn [is_None].
  assert (forall q, q <= 15 -> fle (Fin f) q = false) as E.
  { intros q Hq. apply fle_Fin_false. eapply Qle_lt_trans; eauto. }
  rewrite (E 1), (E 5), (E 10), (E 15) by (try apply Qle_refl; discriminate).
  now rewrite !andb_false_r.
Qed.

Lemma frequence_of_nonempty (m : list sample) (f : Q) :
  frequence_of m = Fin f -> m <> [].
Proof. intros H ->. discriminate H. Qed.

(** C9: with the gap threshold unset and the compared frequency above 15,
    default resolution assigns 120 to [min_number_of_datapoints] and leaves
    [hole_size_threshold] unset. *)
Theorem C9_last_bucket_assigns_min_points
  (c : config) (m : list sample) (f : Q) :
  hole_size_threshold c = None ->
  frequence_of m = Fin f ->
  15 < f ->
  exists c', set_defaults c m = Ok c' /\
    min_number_of_datapoints c' = Some 120%Z /\
    hole_size_threshold c' = None.
Proof.
  intros H Hf H15.
  pose proof (frequence_of_nonempty _ _ Hf) as Hm.
  unfold set_defaults. rewrite Hf.
  match goal with |- exists c', default_max_dist m ?c0 = _ /\ _ =>
    destruct (default_max_dist_ok m c0 Hm) as (c' & Hc' & A & _ & _ & D & _)
  end.
  exists c'. split; [exact Hc'|]. rewrite A, D.
  rewrite min_after_exceeds, hole_after_exceeds.
  rewrite hole_block_last_bucket; auto.
  - split; [reflexivity|]. cbn.
    now rewrite hole_after_smooth, hole_after_prep, hole_after_min.
  - now rewrite hole_after_smooth, hole_after_prep, hole_after_min.
Qed.

Lemma C9_last_bucket_witness :
  exists c', set_defaults unset five_minute_stream = Ok c' /\
    min_number_of_datapoints c' = Some 120%Z /\
    hole_size_threshold c' = None.
Proof.
  eapply (C9_last_bucket_assigns_min_points unset five_minute_stream);
    reflexivity.
Defined.

(** Once every tunable has a value, no later stream changes it. *)
Lemma set_defaults_resolved (c : config) (m : list sample) :
  is_None (min_number_of_datapoints c) = false ->
  is_None (prep_smooth_kernal c) = false ->
  is_None (smooth_kernal c) = false ->
  is_None (hole_size_threshold c) = false ->
  is_None (n_max_exceeds c) = false ->
  is_None (max_dist c) = false ->
  set_defaults c m = Ok c.
Proof.
  intros H1 H2 H3 H4 H5 H6. unfold set_defaults.
  unfold default_min_number_of_datapoints. rewrite H1.
  unfold default_prep_smooth_kernal. rewrite H2.
  unfold default_smooth_kernal. rewrite H3.
  unfold default_hole_size_threshold. rewrite H4.
  unfold default_n_max_exceeds. rewrite H5.
  unfold default_max_dist. now rewrite H6.
Qed.

(** C2 fails on the code.  With every tunable unset, the stream sampled
    every 15 seconds is resolved first (max_exceed_count = 45); the stream
    sampled every 5 minutes, whose own frequency resolves 20, is then
    processed under the values of the first stream. *)
Lemma C2_defaults_of_first_stream_reused :
  partition_by (with_default_id unset
                  (quarter_minute_stream ++ second_stream))
  = [quarter_minute_stream; second_stream] /\
  exists cA cB,
    set_defaults unset quarter_minute_stream = Ok cA /\
    n_max_exceeds cA = Some 45%Z /\
    smooth_kernal cA = Some 10%positive /\
    set_defaults unset second_stream = Ok cB /\
    n_max_exceeds cB = Some 20%Z /\
    smooth_kernal cB = Some 2%positive /\
    stream_body quarter_minute_stream (unset, []) = Ok (cA, []) /\
    stream_body second_stream (cA, []) = Ok (cA, []) /\
    clear_sky_days unset (quarter_minute_stream ++ second_stream)
    = Ok (cA, []).
Proof.
  split; [reflexivity|].
  eexists. eexists.
  split; [vm_compute; reflexivity|].
  split; [reflexivity|]. split; [reflexivity|].
  split; [vm_compute; reflexivity|].
  split; [reflexivity|]. split; [reflexivity|].
  split; [vm_compute; reflexivity|].
  split; [vm_compute; reflexivity|].
  vm_compute; reflexivity.
Qed.

(** ** Sorting *)

Section SortFacts.
Context {A : Type}.
Variable leb : A -> A -> bool.

Lemma insert_perm (a : A) (l : list A) : Permutation (insert leb a l) (a :: l).
Proof.
  induction l as [|b l IH]; simpl; [reflexivity|].
  destruct (leb a b); [reflexivity|].
  rewrite IH. apply perm_swap.
Qed.

Lemma sort_perm (l : list A) : Permutation (sort leb l) l.
Proof.
  induction l as [|a l IH]; simpl; [reflexivity|].
  rewrite insert_perm. now constructor.
Qed.

Lemma length_sort (l : list A) : List.length (sort leb l) = List.length l.
Proof. apply Permutation_length, sort_perm. Qed.

Lemma in_sort (a : A) (l : list A) : In a (sort leb l) <-> In a l.
Proof.
  split; apply Permutation_in; [|symmetry]; apply sort_perm.
Qed.

Hypothesis leb_total : forall a b, leb a b = false -> leb b a = true.
Hypothesis leb_trans :
  forall a b c, leb a b = true -> leb b c = true -> leb a c = true.

Let le (a b : A) : Prop := leb a b = true.

Lemma insert_sorted (a : A) (l : list A) :
  StronglySorted le l -> StronglySorted le (insert leb a l).
Proof.
  induction 1 as [|b l Hs IH Hb]; simpl.
  - constructor; constructor.
  - destruct (leb a b) eqn:E.
    + constructor; [now constructor|].
      constructor; [exact E|].
      eapply Forall_impl; [|exact Hb]. intros x Hx. eapply leb_trans; eauto.
    + constructor; [exact IH|].
      apply (Permutation_Forall (x := a :: l)).
      * symmetry. apply insert_perm.
      * constructor; [now apply leb_total | exact Hb].
Qed.

Lemma sort_sorted (l : list A) : StronglySorted le (sort leb l).
Proof.
  induction l as [|a l IH]; simpl; [constructor|].
  now apply insert_sorted.
Qed.
End SortFacts.

Lemma Qle_bool_total (a b : Q) : Qle_bool a b = false -> Qle_bool b a = true.
Proof.
  intros H. apply Qle_bool_iff. destruct (Qlt_le_dec b a) as [L|L].
  - now apply Qlt_le_weak.
  - apply Qle_bool_iff in L. congruence.
Qed.

Lemma Qle_bool_trans (a b c : Q) :
  Qle_bool a b = true -> Qle_bool b c = true -> Qle_bool a c = true.
Proof. rewrite !Qle_bool_iff. apply Qle_trans. Qed.

Lemma Qlt_bool_iff (a b : Q) : Qlt_bool a b = true <-> a < b.
Proof.
  unfold Qlt_bool. rewrite negb_true_iff. split.
  - intros H. apply Qnot_le_lt. intros L. apply Qle_bool_iff in L. congruence.
  - intros H. destruct (Qle_bool b a) eqn:E; [|reflexivity].
    apply Qle_bool_iff in E. exfalso. apply (Qlt_not_le _ _ H E).
Qed.

(** The array [_bad_holes_check] and [get_frequence] take differences of is
    in ascending order. *)
Lemma day_times_sorted (rows : list timed) :
  StronglySorted Qle (map day_time (sort by_day_time rows)).
Proof.
  pose proof (sort_sorted by_day_time
                (fun a b => Qle_bool_total (day_time a) (day_time b))
                (fun a b c => Qle_bool_trans (day_time a) (day_time b)
                                             (day_time c)) rows) as H.
  induction H as [|r l Hs IH Hr]; simpl; constructor; [exact IH|].
  apply Forall_map. eapply Forall_impl; [|exact Hr].
  intros x Hx. now apply Qle_bool_iff.
Qed.

(** ** The gap check *)

Lemma Qmaxb_ge_l (a b : Q) : a <= Qmaxb a b.
Proof.
  unfold Qmaxb. destruct (Qle_bool a b) eqn:E.
  - now apply Qle_bool_iff.
  - apply Qle_refl.
Qed.

Lemma Qmaxb_ge_r (a b : Q) : b <= Qmaxb a b.
Proof.
  unfold Qmaxb. destruct (Qle_bool a b) eqn:E.
  - apply Qle_refl.
  - apply Qle_bool_iff. now apply Qle_bool_total.
Qed.

Lemma Qmaxb_cases (a b : Q) : Qmaxb a b = a \/ Qmaxb a b = b.
Proof. unfold Qmaxb. destruct (Qle_bool a b); auto. Qed.

Lemma fold_max_spec (l : list Q) (x : Q) :
  let m := fold_left Qmaxb l x in
  In m (x :: l) /\ x <= m /\ Forall (fun d => d <= m) l.
Proof.
  revert x. induction l as [|y l IH]; intros x; simpl.
  - split; [now left|]. split; [apply Qle_refl | constructor].
  - destruct (IH (Qmaxb x y)) as (Hin & Hle & Hall). split; [|split].
    + destruct Hin as [Hin|Hin]; [|now right; right].
      rewrite <- Hin.
      destruct (Qmaxb_cases x y) as [E|E]; [left | right; left]; now rewrite E.
    + eapply Qle_trans; [apply Qmaxb_ge_l | exact Hle].
    + constructor; [|exact Hall].
      eapply Qle_trans; [apply Qmaxb_ge_r | exact Hle].
Qed.

(** [np.max] of a non-empty array is an element that bounds the others. *)
Lemma np_max_spec (a : list Q) :
  a <> [] ->
  exists m, np_max a = Ok m /\ In m a /\ Forall (fun d => d <= m) a.
Proof.
  destruct a as [|x l]; [congruence|]. intros _.
  destruct (fold_max_spec l x) as (Hin & Hle & Hall).
  exists (fold_left Qmaxb l x). split; [reflexivity|]. split; [exact Hin|].
  now constructor.
Qed.

Lemma length_diffs (a : list Q) :
  List.length (diffs a) = (List.length a - 1)%nat.
Proof.
  unfold diffs. rewrite length_map, length_combine.
  destruct a as [|x a]; [reflexivity|]. cbn [tl List.length]. lia.
Qed.



(** ** Correlation *)

Lemma corr_gt_correct (a d t : Q) :
  0 < d ->
  corr_gt (Rho a d) t = true <-> (Q2R t < Q2R a / sqrt (Q2R d))%R.
Proof.
  intros Hd. apply Qlt_Rlt in Hd. rewrite RMicromega.Q2R_0 in Hd.
  pose proof (sqrt_lt_R0 _ Hd) as Hs.
  pose proof (sqrt_sqrt (Q2R d) (Rlt_le _ _ Hd)) as Hss.
  set (s := sqrt (Q2R d)) in *.
  assert ((Q2R t < Q2R a / s)%R <-> (Q2R t * s < Q2R a)%R) as ->.
  { split; intros H.
    - apply (Rmult_lt_compat_r s) in H; [|exact Hs].
      unfold Rdiv in H. rewrite Rmult_assoc, Rinv_l in H; lra.
    - apply (Rmult_lt_reg_r s); [exact Hs|].
      unfold Rdiv. rewrite Rmult_assoc, Rinv_l; lra. }
  assert (forall u : R, (u * s * (u * s) = u * u * Q2R d)%R) as Hsq2.
  { intros u. rewrite <- Hss. ring. }
  unfold corr_gt.
  destruct (Qle_bool 0 t) eqn:Et.
  - apply Qle_bool_iff, Qle_Rle in Et. rewrite RMicromega.Q2R_0 in Et.
    rewrite andb_true_iff, !Qlt_bool_iff. split.
    + intros [Ha Hsq]. apply Qlt_Rlt in Ha, Hsq.
      rewrite RMicromega.Q2R_0 in Ha. rewrite !Q2R_mult in Hsq.
      rewrite <- Hsq2 in Hsq.
      destruct (Rlt_le_dec (Q2R t * s) (Q2R a)) as [L|L]; [exact L|].
      exfalso. pose proof (Rmult_le_compat _ _ _ _ (Rlt_le _ _ Ha)
                             (Rlt_le _ _ Ha) L L). lra.
    + intros H.
      assert (0 <= Q2R t * s)%R as Hts by (apply Rmult_le_pos; lra).
      split; apply Rlt_Qlt; rewrite ?RMicromega.Q2R_0, ?Q2R_mult; [lra|].
      rewrite <- Hsq2.
      apply Rmult_le_0_lt_compat; lra.
  - assert (Q2R t < 0)%R as Ht.
    { rewrite <- RMicromega.Q2R_0. apply Qlt_Rlt. apply Qnot_le_lt.
      intros H. apply Qle_bool_iff in H. congruence. }
    assert (Q2R t * s < 0)%R as Hts.
    { rewrite <- (Rmult_0_l s). apply Rmult_lt_compat_r; lra. }
    rewrite orb_true_iff, Qle_bool_iff, Qlt_bool_iff. split.
    + intros [Ha|Hsq].
      * apply Qle_Rle in Ha. rewrite RMicromega.Q2R_0 in Ha. lra.
      * apply Qlt_Rlt in Hsq. rewrite !Q2R_mult in Hsq.
        rewrite <- Hsq2 in Hsq.
        destruct (Rlt_le_dec (Q2R t * s) (Q2R a)) as [L|L]; [exact L|].
        exfalso.
        assert (0 <= - (Q2R t * s))%R as P1 by lra.
        assert (- (Q2R t * s) <= - Q2R a)%R as P2 by lra.
        pose proof (Rmult_le_compat _ _ _ _ P1 P1 P2 P2). lra.
    + intros H. destruct (Rle_lt_dec 0 (Q2R a)) as [Ha|Ha].
      * left. apply Rle_Qle. now rewrite RMicromega.Q2R_0.
      * right. apply Rlt_Qlt. rewrite !Q2R_mult. rewrite <- Hsq2.
        assert (0 <= - Q2R a)%R as P1 by lra.
        assert (- Q2R a < - (Q2R t * s))%R as P2 by lra.
        pose proof (Rmult_le_0_lt_compat _ _ _ _ P1 P1 P2 P2). lra.
Qed.

Lemma sum_nonneg (l : list Q) : Forall (fun v => 0 <= v) l -> 0 <= sum l.
Proof.
  induction 1 as [|v l Hv Hl IH]; [apply Qle_refl|].
  change (sum (v :: l)) with (v + sum l).
  rewrite <- (Qplus_0_l 0). now apply Qplus_le_compat.
Qed.

Lemma dot_self_nonneg (l : list Q) : 0 <= dot l l.
Proof.
  unfold dot. apply sum_nonneg.
  induction l as [|v l IH]; simpl; constructor; [|exact IH].
  cbn [fst snd]. unfold Qle. simpl. nia.
Qed.

Lemma cov_self_nonneg (z : list Q) : (2 <= List.length z)%nat -> 0 <= cov z z.
Proof.
  intros Hn. unfold cov, Qdiv. apply Qmult_le_0_compat.
  - apply dot_self_nonneg.
  - apply Qinv_le_0_compat.
    assert (1 <= inject_Z (Z.of_nat (List.length z))) as H.
    { change 1 with (inject_Z 1). rewrite <- Zle_Qle. lia. }
    apply (Qplus_le_l _ _ 1). ring_simplify. exact H.
Qed.

(** A defined correlation is the covariance over the root of the product
    of the variances, which is positive. *)
Lemma corrcoef_value (x y : list Q) (a d : Q) :
  List.length x = List.length y ->
  corrcoef x y = Rho a d ->
  a = cov x y /\ d = cov x x * cov y y /\ 0 < d.
Proof.
  intros Hlen. unfold corrcoef.
  destruct (Nat.ltb_spec (List.length x) 2) as [|Hn]; [discriminate|].
  destruct (Qeq_bool (cov x x * cov y y) 0) eqn:E; [discriminate|].
  intros [= <- <-]. split; [reflexivity|]. split; [reflexivity|].
  assert (0 <= cov x x * cov y y) as Hge.
  { apply Qmult_le_0_compat; apply cov_self_nonneg; lia. }
  apply Qle_lt_or_eq in Hge. destruct Hge as [L|Eq]; [exact L|].
  symmetry in Eq. apply Qeq_bool_iff in Eq. congruence.
Qed.

(** [corr > t] decides the comparison of the real coefficient with [t]. *)
Lemma corr_gt_pearson (x y : list Q) (t : Q) :
  List.length x = List.length y ->
  corr_gt (corrcoef x y) t = true <->
  exists rho, corr_value (corrcoef x y) = Some rho /\ (Q2R t < rho)%R.
Proof.
  intros Hlen. destruct (corrcoef x y) as [|a d] eqn:E.
  - split; [discriminate|]. intros (rho & H & _). discriminate H.
  - destruct (corrcoef_value x y a d Hlen E) as (_ & _ & Hd).
    rewrite (corr_gt_correct a d t Hd). cbn [corr_value]. split.
    + intros H. eexists. split; [reflexivity | exact H].
    + intros (rho & [= <-] & H). exact H.
Qed.

(** ** The verdict on a gated day *)

Lemma n_max_exceeds_resolved (f : float) (c : config) :
  is_None (n_max_exceeds (default_n_max_exceeds f c)) = false.
Proof.
  unfold default_n_max_exceeds.
  destruct (n_max_exceeds c) eqn:E; cbn [is_None].
  - now rewrite E.
  - by_cases_of_defaults.
Qed.

(** After default resolution the two thresholds of the comparison have a
    value. *)
Lemma set_defaults_thresholds (c0 c : config) (m : list sample) :
  set_defaults c0 m = Ok c ->
  exists md nm, max_dist c = Some md /\ n_max_exceeds c = Some nm.
Proof.
  unfold set_defaults.
  set (f := frequence_of m).
  set (c4 := default_hole_size_threshold f _).
  pose proof (n_max_exceeds_resolved f c4) as Hn.
  set (c5 := default_n_max_exceeds f c4) in *.
  unfold default_max_dist.
  destruct (max_dist c5) as [md|] eqn:Emd; cbn [is_None].
  - intros [= <-]. exists md.
    destruct (n_max_exceeds c5) as [nm|]; [|discriminate Hn].
    exists nm. now split.
  - destruct (np_max (map power m)) as [mx|e]; cbn [bind]; [|discriminate].
    intros [= <-]. eexists.
    destruct (n_max_exceeds c5) as [nm|] eqn:En; [|discriminate Hn].
    exists nm. split; [reflexivity | exact En].
Qed.

(** What [evaluate_day] returns for a day that passed the gate. *)
Lemma evaluate_day_gated (c : config) (cst : list template_row)
  (day : list sample) (md : Q) (nm : Z) :
  gated c day ->
  max_dist c = Some md ->
  n_max_exceeds c = Some nm ->
  let day_data := sort by_day_time (add_daytime (Plain day)) in
  let comp_data := compare_day day_data cst in
  let r := corrcoef (map c_power comp_data) (map c_tmp_power comp_data) in
  evaluate_day c cst day
  = Ok (if corr_gt r (corr_threshold c)
           && (Z.of_nat (List.length (exceeds comp_data md)) <=? nm)%Z
        then Some (map (fun x => mkClearSky x r) day_data)
        else None).
Proof.
  intros (mp & first & last & hs & Hmp & Hlen & Hf & Hl & Pf & Pl & Hh) Hmd Hnm.
  cbv zeta in *.
  unfold evaluate_day. rewrite Hmp. cbn [required bind].
  destruct (Z.gtb_spec (Z.of_nat (List.length day)) mp) as [_|Hc]; [|lia].
  rewrite Hf, Hl. cbn [bind].
  apply Qle_bool_iff in Pf, Pl. rewrite Pf, Pl. cbn [andb].
  rewrite Hh. cbn [bind].
  set (comp_data := compare_day _ cst).
  set (r := corrcoef _ _).
  destruct (corr_gt r (corr_threshold c)); cbn [andb]; [|reflexivity].
  rewrite Hmd, Hnm. cbn [required bind]. unfold _check_distance.
  rewrite Z.gtb_ltb.
  destruct (Z.ltb_spec nm (Z.of_nat (List.length (exceeds comp_data md))));
    destruct (Z.leb_spec (Z.of_nat (List.length (exceeds comp_data md))) nm);
    try lia; reflexivity.
Qed.


(** Fewer than two observations have no correlation. *)
Lemma corrcoef_short (x y : list Q) :
  (List.length x < 2)%nat -> corrcoef x y = CorrNaN.
Proof.
  intros H. unfold corrcoef.
  destruct (Nat.ltb_spec (List.length x) 2); [reflexivity | lia].
Qed.

(** C8: a gated day left with fewer than 2 aligned pairs is rejected
    without an error, and the loop goes on with the remaining days. *)
Theorem C8_undefined_correlation_rejects (c0 c : config) (m : list sample)
  (cst : list template_row) (day : list sample) (rest : list (list sample))
  (clear_sky_frame : frames) :
  set_defaults c0 m = Ok c ->
  gated c day ->
  (List.length (compare_day (sort by_day_time (add_daytime (Plain day))) cst)
   < 2)%nat ->
  evaluate_day c cst day = Ok None /\
  for_each (day_body c cst) (day :: rest) clear_sky_frame
  = for_each (day_body c cst) rest clear_sky_frame.
Proof.
  intros Hc Hg Hshort.
  destruct (set_defaults_thresholds _ _ _ Hc) as (md & nm & Hmd & Hnm).
  assert (evaluate_day c cst day = Ok None) as E.
  { rewrite (evaluate_day_gated c cst day md nm Hg Hmd Hnm).
    rewrite corrcoef_short; [reflexivity|]. now rewrite length_map. }
  split; [exact E|].
  cbn [for_each]. unfold day_body at 1. rewrite E. reflexivity.
Qed.

(** ** Grouping *)

Section GroupFacts.
Context {A K : Type}.
Variable key : A -> K.
Variable eqb : K -> K -> bool.

Lemma in_distinct (k : K) (ks : list K) : In k (distinct eqb ks) -> In k ks.
Proof.
  induction ks as [|k0 ks IH]; simpl; [tauto|].
  intros [H|H]; [now left|]. apply filter_In in H. right. tauto.
Qed.

Hypothesis eqb_refl : forall k, eqb k k = true.
Hypothesis eqb_sym : forall k k', eqb k k' = true -> eqb k' k = true.
Hypothesis eqb_trans :
  forall k k' k'', eqb k k' = true -> eqb k' k'' = true -> eqb k k'' = true.

(** Every key is represented by a distinct key. *)
Lemma distinct_covers (k : K) (ks : list K) :
  In k ks -> exists k', In k' (distinct eqb ks) /\ eqb k' k = true.
Proof.
  induction ks as [|k0 ks IH]; simpl; [tauto|].
  intros [->|H].
  - exists k. split; [now left | apply eqb_refl].
  - destruct (IH H) as (k' & Hin & He).
    destruct (eqb k0 k') eqn:E.
    + exists k0. split; [now left | eapply eqb_trans; eauto].
    + exists k'. split; [|exact He]. right. apply filter_In.
      split; [exact Hin | now rewrite E].
Qed.

(** The distinct keys are pairwise different. *)
Lemma distinct_apart (ks : list K) :
  ForallOrdPairs (fun k k' => eqb k k' = false) (distinct eqb ks).
Proof.
  induction ks as [|k0 ks IH]; simpl; constructor.
  - apply Forall_forall. intros k Hk. apply filter_In in Hk.
    now apply negb_true_iff.
  - clear - IH. induction IH as [|k l Hk Hl IHl]; simpl; [constructor|].
    destruct (negb (eqb k0 k)); [|exact IHl].
    constructor; [|exact IHl].
    apply Forall_forall. intros x Hx. apply filter_In in Hx.
    rewrite Forall_forall in Hk. now apply Hk.
Qed.

Lemma in_members (a : A) (k : K) (l : list A) :
  In a (members key eqb k l) <-> In a l /\ eqb k (key a) = true.
Proof. apply filter_In. Qed.

Lemma in_group_by (g : K * list A) (l : list A) :
  In g (group_by key eqb l) ->
  In (fst g) (distinct eqb (map key l)) /\ snd g = members key eqb (fst g) l.
Proof.
  unfold group_by. rewrite in_map_iff. intros (k & <- & Hk). now split.
Qed.

(** No group is empty. *)
Lemma group_nonempty (g : K * list A) (l : list A) :
  In g (group_by key eqb l) -> snd g <> [].
Proof.
  intros H. apply in_group_by in H. destruct H as [Hk ->].
  apply in_distinct, in_map_iff in Hk. destruct Hk as (a & Ha & Hin).
  intros E. assert (In a (members key eqb (fst g) l)) as Hm.
  { apply in_members. split; [exact Hin|]. rewrite <- Ha. apply eqb_refl. }
  rewrite E in Hm. destruct Hm.
Qed.
End GroupFacts.

Lemma Qeq_bool_trans (a b c : Q) :
  Qeq_bool a b = true -> Qeq_bool b c = true -> Qeq_bool a c = true.
Proof. rewrite !Qeq_bool_iff. apply Qeq_trans. Qed.

Lemma Qeq_bool_sym' (a b : Q) : Qeq_bool a b = true -> Qeq_bool b a = true.
Proof. rewrite !Qeq_bool_iff. apply Qeq_sym. Qed.

Lemma StronglySorted_filter {A : Type} (R : A -> A -> Prop) (f : A -> bool)
  (l : list A) : StronglySorted R l -> StronglySorted R (filter f l).
Proof.
  induction 1 as [|a l Hs IH Ha]; simpl; [constructor|].
  destruct (f a); [|exact IH]. constructor; [exact IH|].
  apply Forall_forall. intros x Hx. apply filter_In in Hx.
  rewrite Forall_forall in Ha. now apply Ha.
Qed.

(** The distinct keys of an ascending column are strictly ascending. *)
Lemma distinct_sorted (l : list Q) :
  StronglySorted Qle l -> StronglySorted Qlt (distinct Qeq_bool l).
Proof.
  induction 1 as [|k ks Hs IH Hk]; simpl; constructor.
  - now apply StronglySorted_filter.
  - apply Forall_forall. intros x Hx. apply filter_In in Hx.
    destruct Hx as [Hx Hne]. apply in_distinct in Hx.
    rewrite Forall_forall in Hk. specialize (Hk x Hx).
    apply Qle_lt_or_eq in Hk. destruct Hk as [L|E]; [exact L|].
    apply Qeq_bool_iff in E. rewrite E in Hne. discriminate Hne.
Qed.

(** ** The template *)

Lemma length_rolling_mean (w : positive) (col : column) :
  List.length (rolling_mean w col) = List.length col.
Proof. unfold rolling_mean. now rewrite length_map, length_seq. Qed.

(** Row [i] of a centered moving average of width [w]. *)
Lemma rolling_mean_nth (w : positive) (col : column) (i : nat) :
  (i < List.length col)%nat ->
  let right := ((Pos.to_nat w + 1) / 2)%nat in
  let left := (Pos.to_nat w - right)%nat in
  nth_error (rolling_mean w col) i
  = Some (if ((left <=? i) && (i + right <=? List.length col))%nat
          then option_map (fun s => s / inject_Z (Z.pos w))
                 (sum_valid (firstn (Pos.to_nat w) (skipn (i - left) col)))
          else None).
Proof.
  intros Hi right left. unfold rolling_mean.
  rewrite nth_error_map, nth_error_seq.
  destruct (Nat.ltb_spec i (List.length col)); [|lia]. reflexivity.
Qed.

Lemma map_fst_combine {A B : Type} (a : list A) (b : list B) :
  List.length a = List.length b -> map fst (combine a b) = a.
Proof.
  revert b. induction a as [|x a IH]; intros [|y b]; simpl; try easy.
  intros [= H]. now rewrite IH.
Qed.

Lemma map_snd_combine {A B : Type} (a : list A) (b : list B) :
  List.length a = List.length b -> map snd (combine a b) = b.
Proof.
  revert b. induction a as [|x a IH]; intros [|y b]; simpl; try easy.
  intros [= H]. now rewrite IH.
Qed.

Lemma map_fst_pooled (prep : option positive) (id_data : frame) :
  map fst (pooled prep id_data)
  = map day_time (sort by_day_time (add_daytime id_data)).
Proof.
  unfold pooled. apply map_fst_combine.
  destruct prep; rewrite ?length_rolling_mean, !length_map; reflexivity.
Qed.

(** The envelope has one row per distinct [day_time]: the maximum of the
    bucket, times [percentil]. *)
Lemma envelope_buckets (percentil : Q) (prep : option positive)
  (id_data : frame) :
  envelope percentil prep id_data
  = map (fun k =>
           (k, option_map (fun p => p * percentil)
                 (max_valid (map snd (members fst Qeq_bool k
                                        (pooled prep id_data))))))
        (distinct Qeq_bool
           (map day_time (sort by_day_time (add_daytime id_data)))).
Proof.
  unfold envelope, group_by.
  rewrite !map_map, map_fst_pooled. reflexivity.
Qed.

Lemma envelope_keys (percentil : Q) (prep : option positive)
  (id_data : frame) :
  map fst (envelope percentil prep id_data)
  = distinct Qeq_bool (map day_time (sort by_day_time (add_daytime id_data))).
Proof. rewrite envelope_buckets, map_map. simpl. apply map_id. Qed.

Lemma template_columns (id_data : frame) (percentil : Q)
  (prep smooth : option positive) :
  let env := envelope percentil prep id_data in
  let cst := get_clearskytemplate id_data percentil prep smooth in
  map t_day_time cst = map fst env /\
  map t_power cst = map snd env /\
  map tmp_power cst = match smooth with
                      | Some w => rolling_mean w (map snd env)
                      | None => map snd env
                      end.
Proof.
  intros env cst. unfold cst, get_clearskytemplate. fold env.
  set (tmp := match smooth with Some w => _ | None => _ end).
  assert (List.length env = List.length tmp) as Hlen.
  { unfold tmp. destruct smooth;
      rewrite ?length_rolling_mean, length_map; reflexivity. }
  rewrite !map_map. cbn [t_day_time t_power tmp_power].
  repeat split.
  - rewrite <- (map_map fst fst), map_fst_combine; auto.
  - rewrite <- (map_map fst snd), map_fst_combine; auto.
  - now rewrite map_snd_combine.
Qed.


(** ** Alignment *)

Lemma asof_none_later (cst : list template_row) (k : Q)
  (acc : option template_row) :
  Forall (fun t => k < t_day_time t) cst ->
  fold_left (fun acc r => if Qle_bool (t_day_time r) k then Some r else acc)
            cst acc = acc.
Proof.
  revert acc. induction cst as [|t cst IH]; intros acc H; simpl; [reflexivity|].
  inversion H as [|? ? Ht Hrest]; subst.
  destruct (Qle_bool (t_day_time t) k) eqn:E.
  - apply Qle_bool_iff in E. exfalso. apply (Qlt_not_le _ _ Ht E).
  - now apply IH.
Qed.

Lemma asof_found_from (cst : list template_row) (k : Q) (t : template_row)
  (acc : option template_row) :
  StronglySorted Qlt (map t_day_time cst) ->
  In t cst -> t_day_time t == k ->
  fold_left (fun acc r => if Qle_bool (t_day_time r) k then Some r else acc)
            cst acc = Some t.
Proof.
  revert acc. induction cst as [|a cst IH]; intros acc Hs Hin Hk; [destruct Hin|].
  simpl in Hs. apply StronglySorted_inv in Hs. destruct Hs as [Hs Ha].
  destruct Hin as [->|Hin].
  - simpl. assert (Qle_bool (t_day_time t) k = true) as E.
    { apply Qle_bool_iff. rewrite Hk. apply Qle_refl. }
    rewrite E. apply asof_none_later.
    rewrite Forall_map in Ha. eapply Forall_impl; [|exact Ha].
    intros x Hx. simpl in Hx. now rewrite <- Hk.
  - simpl. now apply IH.
Qed.

(** In a template with ascending keys, a key that is present is matched by
    its own row. *)
Lemma asof_backward_found (cst : list template_row) (k : Q)
  (t : template_row) :
  StronglySorted Qlt (map t_day_time cst) ->
  In t cst -> t_day_time t == k ->
  asof_backward cst k = Some t.
Proof. apply asof_found_from. Qed.

Lemma combine_map {A B C : Type} (f : A -> B) (g : A -> C) (l : list A) :
  combine (map f l) (map g l) = map (fun x => (f x, g x)) l.
Proof. induction l; simpl; congruence. Qed.

Lemma filter_map_commute {A B : Type} (f : A -> B) (p : B -> bool)
  (l : list A) :
  filter p (map f l) = map f (filter (fun x => p (f x)) l).
Proof.
  induction l as [|a l IH]; simpl; [reflexivity|].
  destruct (p (f a)); simpl; now rewrite IH.
Qed.

Lemma max_valid_from (l : list Q) (a : Q) :
  fold_left (fun acc x =>
               match acc, x with
               | Some a, Some b => Some (Qmaxb a b)
               | None, _ => x
               | _, None => acc
               end) (map Some l) (Some a)
  = Some (fold_left Qmaxb l a).
Proof. revert a. induction l as [|x l IH]; intros a; simpl; auto. Qed.

(** The maximum of a bucket without nulls. *)
Lemma max_valid_some (l : list Q) :
  l <> [] ->
  exists m, max_valid (map Some l) = Some m /\ In m l /\
            Forall (fun p => p <= m) l.
Proof.
  destruct l as [|x l]; [congruence|]. intros _.
  destruct (fold_max_spec l x) as (Hin & Hle & Hall).
  exists (fold_left Qmaxb l x). split; [|split; [exact Hin | now constructor]].
  unfold max_valid. simpl. apply max_valid_from.
Qed.

(** Without the second smoothing pass the template is the envelope. *)
Lemma template_without_post_smoothing (id_data : frame) (percentil : Q)
  (prep : option positive) :
  get_clearskytemplate id_data percentil prep None
  = map (fun b => mkTemplateRow (fst b) (snd b) (snd b))
        (envelope percentil prep id_data).
Proof.
  unfold get_clearskytemplate.
  rewrite <- (map_id (envelope percentil prep id_data)) at 1.
  rewrite combine_map, map_map. reflexivity.
Qed.

Lemma template_keys_sorted (id_data : frame) (percentil : Q)
  (prep smooth : option positive) :
  StronglySorted Qlt
    (map t_day_time (get_clearskytemplate id_data percentil prep smooth)).
Proof.
  destruct (template_columns id_data percentil prep smooth) as (Hk & _).
  rewrite Hk, envelope_keys. apply distinct_sorted, day_times_sorted.
Qed.

Lemma pooled_without_smoothing (id_data : frame) :
  pooled None id_data
  = map (fun r => (day_time r, Some (power (base r))))
        (sort by_day_time (add_daytime id_data)).
Proof. unfold pooled. apply combine_map. Qed.

(** With both smoothing passes off, a row of the window is matched by the
    bucket of its own [day_time], whose value is the largest power of the
    bucket times [percentil]. *)
Lemma unsmoothed_match (month : list sample) (percentil : Q) (s : sample) :
  In s month ->
  exists t m s',
    asof_backward (get_clearskytemplate (Plain month) percentil None None)
                  (day_time_of (time s)) = Some t /\
    t_power t = Some (m * percentil) /\
    tmp_power t = Some (m * percentil) /\
    In s' month /\
    day_time_of (time s') == day_time_of (time s) /\
    power s' = m /\
    (forall s'', In s'' month ->
                 day_time_of (time s'') == day_time_of (time s) ->
                 power s'' <= m).
Proof.
  intros Hs.
  set (sorted := sort by_day_time (add_daytime (Plain month))).
  assert (In (stamp s) sorted) as Hr.
  { apply in_sort. simpl. now apply in_map. }
  assert (In (day_time_of (time s)) (map day_time sorted)) as Hq.
  { apply in_map_iff. exists (stamp s). now split. }
  destruct (distinct_covers Qeq_bool Qeq_bool_refl Qeq_bool_trans _ _ Hq)
    as (k & Hk & Hkq).
  apply Qeq_bool_iff in Hkq.
  set (bucket := filter (fun r => Qeq_bool k (day_time r)) sorted).
  assert (In (stamp s) bucket) as Hb.
  { apply filter_In. split; [exact Hr|]. now apply Qeq_bool_iff. }
  assert (map (fun r => power (base r)) bucket <> []) as Hne.
  { intros E. apply (in_map (fun r => power (base r))) in Hb.
    rewrite E in Hb. destruct Hb. }
  destruct (max_valid_some _ Hne) as (m & Hm & Hin & Hall).
  exists (mkTemplateRow k (Some (m * percentil)) (Some (m * percentil))), m.
  apply in_map_iff in Hin. destruct Hin as (r' & Hpow & Hr').
  apply filter_In in Hr'. destruct Hr' as [Hr' Hkr'].
  apply in_sort in Hr'. simpl in Hr'. apply in_map_iff in Hr'.
  destruct Hr' as (s' & <- & Hs').
  exists s'. split; [|split; [reflexivity|split; [reflexivity|]]].
  - apply asof_backward_found.
    + apply template_keys_sorted.
    + rewrite template_without_post_smoothing, envelope_buckets, map_map.
      apply in_map_iff. exists k. split; [|exact Hk]. cbn [fst snd].
      rewrite pooled_without_smoothing. unfold members.
      rewrite filter_map_commute. cbn [fst]. fold sorted. fold bucket.
      rewrite map_map. cbn [snd].
      rewrite <- (map_map (fun r => power (base r)) Some), Hm. reflexivity.
    + exact Hkq.
  - split; [exact Hs'|]. split; [|split; [exact Hpow|]].
    + apply Qeq_bool_iff in Hkr'. simpl in Hkr'. now rewrite <- Hkr'.
    + intros s'' Hs'' Hq''. rewrite Forall_forall in Hall. apply Hall.
      apply in_map_iff. exists (stamp s''). split; [reflexivity|].
      apply filter_In. split.
      * apply in_sort. simpl. now apply in_map.
      * apply Qeq_bool_iff. simpl. now rewrite Hq''.
Qed.

Lemma filter_none {A : Type} (f : A -> bool) (l : list A) :
  Forall (fun x => f x = false) l -> filter f l = [].
Proof.
  induction 1 as [|x l Hx Hl IH]; simpl; [reflexivity|]. now rewrite Hx.
Qed.

Lemma filter_all {A : Type} (f : A -> bool) (l : list A) :
  Forall (fun x => f x = true) l -> filter f l = l.
Proof.
  induction 1 as [|x l Hx Hl IH]; simpl; [reflexivity|]. now rewrite Hx, IH.
Qed.

(** A frame whose rows share one key forms a single group. *)
Lemma group_by_constant {A : Type} (key : A -> Z) (d : Z) (l : list A) :
  l <> [] -> Forall (fun a => key a = d) l ->
  group_by key Z.eqb l = [(d, l)].
Proof.
  intros Hne Hall. unfold group_by.
  assert (distinct Z.eqb (map key l) = [d]) as ->.
  { destruct l as [|a l]; [congruence|].
    inversion Hall as [|? ? Ha Hl]; subst. simpl. f_equal.
    apply filter_none. apply Forall_forall. intros k Hk.
    apply in_distinct, in_map_iff in Hk. destruct Hk as (b & <- & Hb).
    rewrite Forall_forall in Hl. rewrite (Hl b Hb), Z.eqb_refl. reflexivity. }
  simpl. f_equal. f_equal. apply filter_all.
  eapply Forall_impl; [|exact Hall]. intros a Ha. simpl in Ha.
  rewrite Ha. apply Z.eqb_refl.
Qed.

Lemma compare_day_cons (r : timed) (l : list timed) (cst : list template_row) :
  compare_day (r :: l) cst
  = match asof_backward cst (day_time r) with
    | Some t =>
        match t_power t, tmp_power t with
        | Some p, Some v => [mkComp r p v]
        | _, _ => []
        end
    | None => []
    end ++ compare_day l cst.
Proof.
  unfold compare_day, join_asof, drop_nulls. simpl.
  destruct (asof_backward cst (day_time r)) as [t|]; simpl; [|reflexivity].
  destruct (t_power t), (tmp_power t); reflexivity.
Qed.

(** C7 (as amended): in a window that holds a single calendar day, with
    both smoothing passes off, every sample is matched, and the template
    value matched to it is [percentil] times the largest power among the
    day's samples that share its [day_time]; it is the sample's own power
    times [percentil] when those samples all have its power. *)
Theorem C7_single_day_unsmoothed_template (month : list sample)
  (percentil : Q) (d : Z) :
  month <> [] ->
  Forall (fun s => dt_date (time s) = d) month ->
  let day_data := sort by_day_time (add_daytime (Plain month)) in
  let cst := get_clearskytemplate (Plain month) percentil None None in
  group_by_date month = [month] /\
  Forall2
    (fun r cr =>
       c_row cr = r /\
       exists s',
         In s' month /\
         day_time_of (time s') == day_time r /\
         c_tmp_power cr = power s' * percentil /\
         (forall s'', In s'' month ->
                      day_time_of (time s'') == day_time r ->
                      power s'' <= power s') /\
         ((forall s'', In s'' month ->
                       day_time_of (time s'') == day_time r ->
                       power s'' == c_power cr) ->
          c_tmp_power cr == c_power cr * percentil))
    day_data (compare_day day_data cst).
Proof.
  intros Hne Hdate day_data cst. split.
  - unfold group_by_date.
    rewrite (group_by_constant _ d month Hne Hdate). reflexivity.
  - assert (Forall (fun r => exists s, In s month /\ r = stamp s) day_data)
      as Hrows.
    { apply Forall_forall. intros r Hr. apply in_sort in Hr. simpl in Hr.
      apply in_map_iff in Hr. destruct Hr as (s & <- & Hs). now exists s. }
    induction Hrows as [|r l (s & Hs & ->) Hl IH]; [constructor|].
    rewrite compare_day_cons.
    destruct (unsmoothed_match month percentil s Hs)
      as (t & m & s' & Ht & Hp & Hv & Hs' & Hq & Hm & Hmax).
    cbn [stamp day_time]. fold cst in Ht. rewrite Ht, Hp, Hv. simpl app.
    constructor; [|exact IH].
    split; [reflexivity|]. exists s'. cbn [c_tmp_power c_row stamp day_time].
    split; [exact Hs'|]. split; [exact Hq|]. split; [now rewrite Hm|].
    split; [now rewrite Hm|].
    intros Huniq. specialize (Huniq s' Hs' Hq).
    unfold c_power in *. cbn [c_row base stamp] in *.
    rewrite <- Hm. now rewrite Huniq.
Qed.

Lemma C7_single_day_witness :
  group_by_date (bell_day 0 1) = [bell_day 0 1] /\
  List.length
    (compare_day (sort by_day_time (add_daytime (Plain (bell_day 0 1))))
       (get_clearskytemplate (Plain (bell_day 0 1)) (9 # 10) None None))
  = List.length (sort by_day_time (add_daytime (Plain (bell_day 0 1)))).
Proof.
  destruct (C7_single_day_unsmoothed_template (bell_day 0 1) (9 # 10) 0)
    as [H1 H2].
  - discriminate.
  - repeat constructor.
  - split; [exact H1|]. symmetry. exact (Forall2_length H2).
Defined.

(** C7 (as stated) fails: of two samples taken within the same second the
    weaker one is matched with the template value of the stronger one. *)
Lemma C7_same_second_counterexample :
  group_by_date same_second_day = [same_second_day] /\
  exists cr,
    In cr (compare_day
             (sort by_day_time (add_daytime (Plain same_second_day)))
             (get_clearskytemplate (Plain same_second_day) (9 # 10)
                None None)) /\
    c_power cr == 10 /\
    c_tmp_power cr == 18 /\
    ~ c_tmp_power cr == c_power cr * (9 # 10).
Proof.
  split; [reflexivity|].
  eexists. split; [vm_compute; left; reflexivity|].
  cbn. split; [reflexivity|]. split; [reflexivity|]. discriminate.
Qed.

(** ** The verdict on a sample day *)

Lemma bell_day_gated (c : config) :
  min_number_of_datapoints c = Some 4%Z ->
  first_last_limit c = 1 # 10 ->
  hole_size_threshold c = Some 150 ->
  gated c (bell_day 1 1).
Proof.
  intros Hmin Hlim Hhole. unfold gated. rewrite Hmin, Hlim, Hhole.
  exists 4%Z. eexists. eexists. eexists.
  split; [reflexivity|]. split; [reflexivity|].
  split; [vm_compute; reflexivity|]. split; [vm_compute; reflexivity|].
  split; [vm_compute; discriminate|]. split; [vm_compute; discriminate|].
  vm_compute. reflexivity.
Qed.


Lemma C8_undefined_correlation_witness :
  evaluate_day (set_smooth_kernal (Some 60%positive) (tuned (30 * us_per_day)))
    (get_clearskytemplate (Plain (bell_day 1 1)) (9 # 10)
       (Some 1%positive) (Some 60%positive))
    (bell_day 1 1)
  = Ok None.
Proof.
  eapply (C8_undefined_correlation_rejects
            (set_smooth_kernal (Some 60%positive) (tuned (30 * us_per_day)))
            (set_smooth_kernal (Some 60%positive) (tuned (30 * us_per_day)))
            (bell_day 1 1) _ (bell_day 1 1) [] []).
  - reflexivity.
  - now apply bell_day_gated.
  - vm_compute. lia.
Defined.

(** ** The loops *)

Section Picks.
Context {A B : Type}.
Variable V : A -> B -> Prop.

Lemma picks_app (l1 l2 : list A) (r1 r2 : list B) :
  picks V l1 r1 -> picks V l2 r2 -> picks V (l1 ++ l2) (r1 ++ r2).
Proof.
  induction 1; intros H2; simpl; [exact H2| |].
  - apply picks_skip. auto.
  - apply picks_take; auto.
Qed.


End Picks.

Lemma set_defaults_keeps (c c' : config) (m : list sample) :
  set_defaults c m = Ok c' ->
  comparison_intervall c' = comparison_intervall c /\
  use_column_id c' = use_column_id c.
Proof.
  unfold set_defaults. set (f := frequence_of m).
  assert (forall c0,
             comparison_intervall (default_min_number_of_datapoints f c0)
             = comparison_intervall c0 /\
             use_column_id (default_min_number_of_datapoints f c0)
             = use_column_id c0) as H1.
  { intros c0. unfold default_min_number_of_datapoints.
    split; by_cases_of_defaults. }
  assert (forall c0,
             comparison_intervall (default_prep_smooth_kernal f c0)
             = comparison_intervall c0 /\
             use_column_id (default_prep_smooth_kernal f c0)
             = use_column_id c0) as H2.
  { intros c0. unfold default_prep_smooth_kernal. split; by_cases_of_defaults. }
  assert (forall c0,
             comparison_intervall (default_smooth_kernal f c0)
             = comparison_intervall c0 /\
             use_column_id (default_smooth_kernal f c0)
             = use_column_id c0) as H3.
  { intros c0. unfold default_smooth_kernal. split; by_cases_of_defaults. }
  assert (forall c0,
             comparison_intervall (default_hole_size_threshold f c0)
             = comparison_intervall c0 /\
             use_column_id (default_hole_size_threshold f c0)
             = use_column_id c0) as H4.
  { intros c0. unfold default_hole_size_threshold.
    split; by_cases_of_defaults. }
  assert (forall c0,
             comparison_intervall (default_n_max_exceeds f c0)
             = comparison_intervall c0 /\
             use_column_id (default_n_max_exceeds f c0)
             = use_column_id c0) as H5.
  { intros c0. unfold default_n_max_exceeds. split; by_cases_of_defaults. }
  set (c5 := default_n_max_exceeds f _).
  assert (comparison_intervall c5 = comparison_intervall c /\
          use_column_id c5 = use_column_id c) as [E1 E2].
  { unfold c5.
    split;
      [ rewrite (proj1 (H5 _)), (proj1 (H4 _)), (proj1 (H3 _)),
          (proj1 (H2 _)), (proj1 (H1 _))
      | rewrite (proj2 (H5 _)), (proj2 (H4 _)), (proj2 (H3 _)),
          (proj2 (H2 _)), (proj2 (H1 _)) ]; reflexivity. }
  unfold default_max_dist. destruct (is_None (max_dist c5)).
  - destruct (np_max (map power m)); cbn [bind]; [|discriminate].
    intros [= <-]. now split.
  - intros [= <-]. now split.
Qed.

Lemma day_loop (c : config) (cst : list template_row)
  (days : list (list sample)) (fr fr' : frames) :
  for_each (day_body c cst) days fr = Ok fr' ->
  exists recs, fr' = fr ++ recs /\ picks accepts days recs.
Proof.
  revert fr. induction days as [|day days IH]; intros fr; simpl.
  - intros [= <-]. exists []. split; [now rewrite app_nil_r | constructor].
  - unfold day_body at 1.
    destruct (evaluate_day c cst day) as [[rec|]|e] eqn:E; cbn [bind];
      [| |discriminate]; intros H; destruct (IH _ H) as (recs & -> & Hp).
    + exists (rec :: recs). split; [now rewrite <- app_assoc|].
      apply picks_take; [|exact Hp]. now exists c, cst.
    + exists recs. split; [reflexivity|]. now apply picks_skip.
Qed.

Lemma window_loop (c : config) (wins : list (list sample)) (fr fr' : frames) :
  for_each (window_body c) wins fr = Ok fr' ->
  exists recs, fr' = fr ++ recs /\
               picks accepts (flat_map group_by_date wins) recs.
Proof.
  revert fr. induction wins as [|w wins IH]; intros fr; simpl.
  - intros [= <-]. exists []. split; [now rewrite app_nil_r | constructor].
  - unfold window_body at 1.
    destruct (for_each _ (group_by_date w) fr) as [fr1|e] eqn:E; cbn [bind];
      [|discriminate].
    intros H. apply day_loop in E. destruct E as (r1 & -> & P1).
    destruct (IH _ H) as (r2 & -> & P2).
    exists (r1 ++ r2). split; [now rewrite app_assoc|]. now apply picks_app.
Qed.

Lemma windows_every (c c' : config) (m : list sample) :
  comparison_intervall c' = comparison_intervall c ->
  windows c' m = windows c m.
Proof. intros H. unfold windows. now rewrite H. Qed.

Lemma stream_loop (streams : list (list sample)) (c c' : config)
  (fr fr' : frames) :
  for_each stream_body streams (c, fr) = Ok (c', fr') ->
  exists recs, fr' = fr ++ recs /\
               picks accepts (flat_map (days_of_stream c) streams) recs.
Proof.
  revert c fr. induction streams as [|m streams IH]; intros c fr; simpl.
  - intros [= <- <-]. exists []. split; [now rewrite app_nil_r | constructor].
  - unfold stream_body at 1. cbn [fst snd].
    destruct (set_defaults c m) as [c1|e] eqn:Ec; cbn [bind]; [|discriminate].
    destruct (for_each (window_body c1) (windows c1 m) fr) as [fr1|e] eqn:E;
      cbn [bind]; [|discriminate].
    intros H. apply window_loop in E. destruct E as (r1 & -> & P1).
    destruct (IH _ _ H) as (r2 & -> & P2).
    destruct (set_defaults_keeps _ _ _ Ec) as [Hev _].
    exists (r1 ++ r2). split; [now rewrite app_assoc|].
    apply picks_app.
    + unfold days_of_stream. now rewrite <- (windows_every c c1 m Hev).
    + assert (forall m', days_of_stream c1 m' = days_of_stream c m') as Hd.
      { intros m'. unfold days_of_stream. now rewrite (windows_every c c1). }
      rewrite <- (flat_map_ext _ _ Hd). exact P2.
Qed.

(** The day frames of the result are granted, in order, to groups of
    [days_of]. *)
Lemma clear_sky_days_picks (c : config) (data : list sample)
  (st : config * frames) :
  clear_sky_days c data = Ok st ->
  picks accepts (days_of c data) (snd st).
Proof.
  unfold clear_sky_days. destruct st as [c' fr']. intros H.
  apply stream_loop in H. destruct H as (recs & -> & P). exact P.
Qed.

(** ** Accepted days *)

(** What an accepted day looks like. *)
Lemma evaluate_day_accepted (c : config) (cst : list template_row)
  (day : list sample) (rec : list clear_sky_row) :
  evaluate_day c cst day = Ok (Some rec) ->
  let day_data := sort by_day_time (add_daytime (Plain day)) in
  let comp_data := compare_day day_data cst in
  let r := corrcoef (map c_power comp_data) (map c_tmp_power comp_data) in
  rec = map (fun x => mkClearSky x r) day_data /\
  corr_gt r (corr_threshold c) = true /\
  (exists md nm, max_dist c = Some md /\ n_max_exceeds c = Some nm /\
                 _check_distance comp_data md nm = true) /\
  (4 < List.length day)%nat.
Proof.
  intros H day_data comp_data r. unfold evaluate_day in H.
  destruct (min_number_of_datapoints c) as [mp|]; cbn [required bind] in H;
    [|discriminate].
  destruct (Z.of_nat (List.length day) >? mp)%Z; [|discriminate].
  fold day_data in H.
  destruct (first_item day_data) as [first|]; cbn [bind] in H; [|discriminate].
  destruct (last_item day_data) as [last|]; cbn [bind] in H; [|discriminate].
  destruct (_ && _); [|discriminate].
  destruct (_bad_holes_check (WithDayTime day_data) (hole_size_threshold c))
    as [[check hs]|] eqn:Eh; cbn [bind] in H; [|discriminate].
  destruct check; [|discriminate].
  fold comp_data in H. fold r in H.
  destruct (corr_gt r (corr_threshold c)); [|discriminate].
  destruct (max_dist c) as [md|]; cbn [required bind] in H; [|discriminate].
  destruct (n_max_exceeds c) as [nm|]; cbn [required bind] in H;
    [|discriminate].
  destruct (_check_distance comp_data md nm) eqn:Ed; [|discriminate].
  injection H as <-. split; [reflexivity|]. split; [reflexivity|].
  split; [now exists md, nm|].
  unfold _bad_holes_check in Eh. cbn [add_daytime] in Eh.
  destruct (Nat.ltb_spec 4
              (List.length (map day_time (sort by_day_time day_data))));
    [|discriminate].
  rewrite length_map, length_sort in *. unfold day_data in *.
  rewrite length_sort in *. cbn [add_daytime] in *. now rewrite length_map in *.
Qed.









(** ** The partition into days *)

Lemma distinct_NoDup (ks : list Z) : NoDup (distinct Z.eqb ks).
Proof.
  induction ks as [|k ks IH]; simpl; constructor.
  - intros H. apply filter_In in H. destruct H as [_ H].
    now rewrite Z.eqb_refl in H.
  - now apply NoDup_filter.
Qed.




Section GroupsByZ.
Context {A : Type}.
Variable key : A -> Z.

Lemma groups_of_keys (l : list A) :
  map snd (group_by key Z.eqb l)
  = map (fun k => filter (fun a => k =? key a)%Z l)
        (distinct Z.eqb (map key l)).
Proof. unfold group_by. now rewrite map_map. Qed.

(** A group is the non-empty selection of the rows with one key. *)
Lemma group_rows (l : list A) (g : list A) :
  In g (map snd (group_by key Z.eqb l)) ->
  exists k, g = filter (fun a => k =? key a)%Z l /\ g <> [].
Proof.
  rewrite groups_of_keys, in_map_iff. intros (k & <- & Hk). exists k.
  split; [reflexivity|].
  apply in_distinct, in_map_iff in Hk. destruct Hk as (a & <- & Ha).
  intros E. assert (In a (filter (fun a' => key a =? key a')%Z l)) as Hin.
  { apply filter_In. split; [exact Ha | apply Z.eqb_refl]. }
  rewrite E in Hin. destruct Hin.
Qed.


End GroupsByZ.








(** The frame of an accepted day holds the day's rows. *)
Lemma accepted_rows (day : list sample) (rec : list clear_sky_row) :
  accepts day rec ->
  exists r,
    rec = map (fun x => mkClearSky x r)
              (sort by_day_time (add_daytime (Plain day))) /\
    (4 < List.length day)%nat.
Proof.
  intros (c & cst & H). apply evaluate_day_accepted in H.
  destruct H as (E & _ & _ & Hlen). eexists. split; [exact E | exact Hlen].
Qed.









(** ** The rows of the result *)




Lemma default_id_rows (c : config) (data : list sample) (s : sample) :
  use_column_id c = false -> In s (with_default_id c data) ->
  module_id s = 0%Z.
Proof.
  unfold with_default_id. intros -> H. apply in_map_iff in H.
  destruct H as (s' & <- & _). reflexivity.
Qed.




(** * Further properties of the code *)

(** ** [add_daytime] *)

Lemma hms_of_second (t : Z) :
  let S := (t / us_per_second)%Z in
  dt_hour t = ((S / 3600) mod 24)%Z /\
  dt_minute t = ((S / 60) mod 60)%Z /\
  dt_second t = (S mod 60)%Z.
Proof.
  intros S. unfold dt_hour, dt_minute, dt_second, us_per_hour, us_per_minute.
  rewrite !(Z.mul_comm _ us_per_second).
  rewrite <- !Z.div_div by (unfold us_per_second; lia).
  now repeat split.
Qed.

Lemma second_of_day (S : Z) :
  (S mod 86400
   = ((S / 3600) mod 24) * 3600 + ((S / 60) mod 60) * 60 + S mod 60)%Z.
Proof.
  assert (S / 3600 = S / 60 / 60)%Z as ->
      by (rewrite Z.div_div by lia; reflexivity).
  pose proof (Z.div_mod S 60 ltac:(lia)).
  pose proof (Z.mod_pos_bound S 60 ltac:(lia)).
  pose proof (Z.div_mod (S / 60) 60 ltac:(lia)).
  pose proof (Z.mod_pos_bound (S / 60) 60 ltac:(lia)).
  pose proof (Z.div_mod (S / 60 / 60) 24 ltac:(lia)).
  pose proof (Z.mod_pos_bound (S / 60 / 60) 24 ltac:(lia)).
  symmetry. apply (Z.mod_unique _ _ (S / 60 / 60 / 24)); lia.
Qed.

(** X1: [day_time] is the whole second of the day, in minutes: the date and
    the part of the timestamp below one second play no role. *)
Theorem X1_day_time_is_second_of_day (t : Z) :
  day_time_of t == inject_Z ((t / us_per_second) mod 86400) / 60.
Proof.
  destruct (hms_of_second t) as (Hh & Hm & Hs). cbv zeta in *.
  unfold day_time_of. rewrite Hh, Hm, Hs, second_of_day.
  rewrite !inject_Z_plus, !inject_Z_mult. field.
Qed.

(** X2: every [day_time] lies in [0, 1440). *)
Theorem X2_day_time_range (t : Z) : 0 <= day_time_of t /\ day_time_of t < 1440.
Proof.
  rewrite X1_day_time_is_second_of_day.
  pose proof (Z.mod_pos_bound (t / us_per_second) 86400 ltac:(lia)) as [L U].
  set (s := ((t / us_per_second) mod 86400)%Z) in *.
  assert (0 <= inject_Z s) as HL.
  { change 0 with (inject_Z 0). now rewrite <- Zle_Qle. }
  assert (inject_Z s < 86400) as HU.
  { change 86400 with (inject_Z 86400). now rewrite <- Zlt_Qlt. }
  unfold Qdiv. change (/ 60) with (1 # 60). split; Lqa.lra.
Qed.

(** ** [get_frequence] *)

Lemma in_diffs (l : list Q) (d : Q) :
  StronglySorted Qle l -> In d (diffs l) ->
  exists x y, d = y - x /\ In x l /\ In y l /\ x <= y.
Proof.
  induction 1 as [|a l Hs IH Ha]; [intros []|].
  destruct l as [|b l]; [intros []|].
  unfold diffs. cbn [tl combine map fst snd]. intros [<-|Hd].
  - exists a, b. split; [reflexivity|]. split; [now left|].
    split; [now right; left|]. now inversion Ha.
  - destruct (IH Hd) as (x & y & E & Hx & Hy & Hxy).
    exists x, y. split; [exact E|]. split; [now right|]. now split; [right|].
Qed.

Lemma median_nan (a : list Q) : median a = NaN <-> a = [].
Proof.
  unfold median. rewrite length_sort. destruct a as [|x a]; [easy|].
  cbn [List.length]. split; [|discriminate].
  destruct (Nat.odd _); discriminate.
Qed.

(** The median lies in every interval that holds the whole array. *)
Lemma median_range (a : list Q) (lo hi q : Q) :
  Forall (fun d => lo <= d /\ d < hi) a ->
  median a = Fin q -> lo <= q /\ q < hi.
Proof.
  intros Ha. unfold median.
  assert (Forall (fun d => lo <= d /\ d < hi) (sort Qle_bool a)) as Hs.
  { eapply Permutation_Forall; [symmetry; apply sort_perm | exact Ha]. }
  rewrite Forall_forall in Hs.
  set (s := sort Qle_bool a) in *.
  assert (forall i, (i < List.length s)%nat ->
                    lo <= nth i s 0 /\ nth i s 0 < hi) as Hn.
  { intros i Hi. apply Hs. now apply nth_In. }
  assert (List.length s <> 0%nat -> (List.length s / 2 < List.length s)%nat)
    as Hhalf by (intros; apply Nat.div_lt; lia).
  remember (List.length s / 2)%nat as h eqn:Eh. clear Eh.
  destruct (List.length s) as [|n'] eqn:En; [discriminate|].
  specialize (Hhalf ltac:(discriminate)).
  destruct (Nat.odd (S n')); intros [= <-].
  - now apply Hn.
  - destruct (Hn (h - 1)%nat ltac:(lia)) as [A1 A2].
    destruct (Hn h Hhalf) as [B1 B2].
    unfold Qdiv. change (/ 2) with (1 # 2). split; Lqa.lra.
Qed.

(** X3: the frequency estimate of a stream is NaN exactly when the stream
    has fewer than two rows; otherwise it is a number of minutes in
    [0, 1440). *)
Theorem X3_get_frequence_range (module_data : list sample) :
  (get_frequence (Plain module_data) = NaN <->
   (List.length module_data <= 1)%nat) /\
  (forall q, get_frequence (Plain module_data) = Fin q -> 0 <= q /\ q < 1440).
Proof.
  unfold get_frequence. cbn [add_daytime].
  set (keys := map day_time (sort by_day_time (map stamp module_data))).
  assert (List.length keys = List.length module_data) as Hlen.
  { unfold keys. now rewrite length_map, length_sort, length_map. }
  split.
  - rewrite median_nan, <- Hlen. split.
    + intros E. apply (f_equal (@List.length Q)) in E.
      rewrite length_diffs in E. simpl in E. lia.
    + intros H. apply length_zero_iff_nil. rewrite length_diffs. lia.
  - intros q. apply median_range. apply Forall_forall. intros d Hd.
    destruct (in_diffs keys d (day_times_sorted _) Hd)
      as (x & y & -> & Hx & Hy & Hxy).
    assert (forall v, In v keys -> 0 <= v /\ v < 1440) as Hr.
    { intros v Hv. unfold keys in Hv. apply in_map_iff in Hv.
      destruct Hv as (r & <- & Hr). apply in_sort in Hr.
      apply in_map_iff in Hr. destruct Hr as (s & <- & _).
      apply X2_day_time_range. }
    destruct (Hr x Hx), (Hr y Hy). split; Lqa.lra.
Qed.

Lemma X3_get_frequence_witness :
  exists q, get_frequence (Plain five_minute_stream) = Fin q /\
            0 <= q /\ q < 1440.
Proof.
  eexists. split; [vm_compute; reflexivity|].
  apply (proj2 (X3_get_frequence_range five_minute_stream)).
  vm_compute. reflexivity.
Defined.

(** ** Default resolution *)

Ltac use_bucket :=
  cbn [is_None fle fgt];
  repeat match goal with
         | H : Qle_bool ?x ?q = _ |- context [Qle_bool ?x ?q] => rewrite H
         end;
  cbn [andb negb].

Ltac unset_cascade H1 H2 H3 H4 H5 :=
  unfold default_min_number_of_datapoints at 1; rewrite H1; use_bucket;
  unfold default_prep_smooth_kernal at 1; cbn -[fle fgt Qle_bool]; rewrite H2;
  use_bucket;
  unfold default_smooth_kernal at 1; cbn -[fle fgt Qle_bool]; rewrite H3;
  use_bucket;
  unfold default_hole_size_threshold at 1; cbn -[fle fgt Qle_bool]; rewrite H4;
  use_bucket;
  unfold default_n_max_exceeds at 1; cbn -[fle fgt Qle_bool]; rewrite H5;
  use_bucket.

Ltac finish_with_max_dist m Hm :=
  match goal with
  | |- exists c', default_max_dist m ?c0 = _ /\ _ =>
      let c' := fresh "c'" in
      let Hc' := fresh "Hc'" in
      let A := fresh in let B := fresh in let C := fresh in
      let D := fresh in let E := fresh in
      destruct (default_max_dist_ok m c0 Hm) as (c' & Hc' & A & B & C & D & E);
      exists c'; split; [exact Hc'|]; rewrite A, B, C, D, E; now repeat split
  end.

Lemma Qle_bool_false (x q : Q) : q < x -> Qle_bool x q = false.
Proof. exact (fle_Fin_false x q). Qed.

(** X4: the frequency table.  With the five tunables unset, a compared
    frequency [f] resolves (min_points, pre_smooth, post_smooth,
    gap_threshold, max_exceed_count) to (300, 10, 60, 30, 300) for
    [f <= 1], (100, 5, 30, 30, 100) for [1 < f <= 5], (70, 2, 15, 50, 70)
    for [5 < f <= 10] and (45, 2, 10, 60, 45) for [10 < f <= 15]. *)
Theorem X4_frequency_table (c : config) (m : list sample) (f : Q) :
  min_number_of_datapoints c = None ->
  prep_smooth_kernal c = None ->
  smooth_kernal c = None ->
  hole_size_threshold c = None ->
  n_max_exceeds c = None ->
  frequence_of m = Fin f ->
  f <= 15 ->
  exists c', set_defaults c m = Ok c' /\
    min_number_of_datapoints c'
    = Some (if Qle_bool f 1 then 300 else if Qle_bool f 5 then 100
            else if Qle_bool f 10 then 70 else 45)%Z /\
    prep_smooth_kernal c'
    = Some (if Qle_bool f 1 then 10 else if Qle_bool f 5 then 5
            else 2)%positive /\
    smooth_kernal c'
    = Some (if Qle_bool f 1 then 60 else if Qle_bool f 5 then 30
            else if Qle_bool f 10 then 15 else 10)%positive /\
    hole_size_threshold c'
    = Some (if Qle_bool f 5 then 30 else if Qle_bool f 10 then 50 else 60) /\
    n_max_exceeds c'
    = Some (if Qle_bool f 1 then 300 else if Qle_bool f 5 then 100
            else if Qle_bool f 10 then 70 else 45)%Z.
Proof.
  intros H1 H2 H3 H4 H5 Hf H15.
  pose proof (frequence_of_nonempty _ _ Hf) as Hm.
  apply Qle_bool_iff in H15.
  unfold set_defaults. rewrite Hf.
  destruct (Qle_bool f 1) eqn:E1.
  - assert (Qle_bool f 5 = true) as E5.
    { apply Qle_bool_iff. apply Qle_bool_iff in E1.
      eapply Qle_trans; [exact E1|discriminate]. }
    unset_cascade H1 H2 H3 H4 H5. finish_with_max_dist m Hm.
  - destruct (Qle_bool f 5) eqn:E5.
    + unset_cascade H1 H2 H3 H4 H5. finish_with_max_dist m Hm.
    + destruct (Qle_bool f 10) eqn:E10.
      * unset_cascade H1 H2 H3 H4 H5. finish_with_max_dist m Hm.
      * unset_cascade H1 H2 H3 H4 H5. finish_with_max_dist m Hm.
Qed.

Lemma X4_frequency_table_witness :
  exists c', set_defaults unset quarter_minute_stream = Ok c' /\
    min_number_of_datapoints c' = Some 45%Z /\
    prep_smooth_kernal c' = Some 2%positive /\
    smooth_kernal c' = Some 10%positive /\
    hole_size_threshold c' = Some 60 /\
    n_max_exceeds c' = Some 45%Z.
Proof.
  edestruct (X4_frequency_table unset quarter_minute_stream)
    as (c' & H & Hmin & Hprep & Hsm & Hh & Hn);
    [reflexivity | reflexivity | reflexivity | reflexivity | reflexivity
    | vm_compute; reflexivity | vm_compute; discriminate |].
  exists c'. split; [exact H|].
  split; [exact Hmin|]. split; [exact Hprep|]. split; [exact Hsm|].
  split; [exact Hh | exact Hn].
Defined.

(** X5: a stream of a single row, whose frequency is NaN, and a stream
    whose compared frequency is above 15 are resolved from the last row of
    the table: with the five tunables unset, pre_smooth = 2,
    post_smooth = 2, max_exceed_count = 20, the gap threshold stays unset
    and min_points is 120. *)
Theorem X5_coarsest_bucket (c : config) (m : list sample) :
  min_number_of_datapoints c = None ->
  prep_smooth_kernal c = None ->
  smooth_kernal c = None ->
  hole_size_threshold c = None ->
  n_max_exceeds c = None ->
  List.length m = 1%nat \/ (exists f, frequence_of m = Fin f /\ 15 < f) ->
  exists c', set_defaults c m = Ok c' /\
    min_number_of_datapoints c' = Some 120%Z /\
    prep_smooth_kernal c' = Some 2%positive /\
    smooth_kernal c' = Some 2%positive /\
    hole_size_threshold c' = None /\
    n_max_exceeds c' = Some 20%Z.
Proof.
  intros H1 H2 H3 H4 H5 Hm.
  assert (m <> [] /\ fle (frequence_of m) 15 = false) as [Hne Hf].
  { destruct Hm as [Hlen | (f & Hf & H15)].
    - destruct m as [|s [|s' m]]; try discriminate Hlen.
      split; [discriminate | reflexivity].
    - split; [exact (frequence_of_nonempty _ _ Hf)|].
      rewrite Hf. now apply fle_Fin_false. }
  assert (forall q, q <= 15 -> fle (frequence_of m) q = false) as Hq.
  { intros q Hle. destruct (frequence_of m) as [|x]; [reflexivity|].
    cbn [fle] in *. apply Qle_bool_false. eapply Qle_lt_trans; [exact Hle|].
    apply Qnot_le_lt. intros L. apply Qle_bool_iff in L. congruence. }
  unfold set_defaults. set (fr := frequence_of m) in *.
  pose proof (Hq 1 ltac:(discriminate)) as E1.
  pose proof (Hq 5 ltac:(discriminate)) as E5.
  pose proof (Hq 10 ltac:(discriminate)) as E10.
  unfold default_min_number_of_datapoints at 1. rewrite H1, E1, E5, E10, Hf.
  cbn [is_None]. rewrite !andb_false_r.
  unfold default_prep_smooth_kernal at 1. cbn -[fle fgt]. rewrite H2, E1, E5.
  cbn [is_None]. rewrite !andb_false_r.
  unfold default_smooth_kernal at 1. cbn -[fle fgt].
  rewrite H3, E1, E5, E10, Hf. cbn [is_None]. rewrite !andb_false_r.
  unfold default_hole_size_threshold at 1. cbn -[fle fgt].
  rewrite H4, E1, E5, E10, Hf. cbn [is_None]. rewrite !andb_false_r.
  unfold default_n_max_exceeds at 1. cbn -[fle fgt].
  rewrite H5, E1, E5, E10, Hf. cbn [is_None]. rewrite !andb_false_r.
  finish_with_max_dist m Hne.
Qed.

Lemma X5_coarsest_bucket_witness :
  exists c', set_defaults unset [mkSample 0 100 1] = Ok c' /\
    min_number_of_datapoints c' = Some 120%Z /\
    prep_smooth_kernal c' = Some 2%positive /\
    smooth_kernal c' = Some 2%positive /\
    hole_size_threshold c' = None /\
    n_max_exceeds c' = Some 20%Z.
Proof.
  apply (X5_coarsest_bucket unset [mkSample 0 100 1]); try reflexivity.
  left. reflexivity.
Defined.

(** What each block of default resolution leaves alone. *)
Ltac block_frame :=
  intros;
  unfold default_min_number_of_datapoints, default_prep_smooth_kernal,
    default_smooth_kernal, default_hole_size_threshold, default_n_max_exceeds;
  repeat match goal with
         | |- context [if ?b then _ else _] => destruct b
         end;
  repeat split; try reflexivity; try discriminate; try assumption.

Lemma min_block (f : float) (c c' : config) :
  c' = default_min_number_of_datapoints f c ->
  (comparison_intervall c' = comparison_intervall c /\
   percentil c' = percentil c /\ first_last_limit c' = first_last_limit c /\
   corr_threshold c' = corr_threshold c /\
   use_column_id c' = use_column_id c) /\
  (prep_smooth_kernal c' = prep_smooth_kernal c /\
   smooth_kernal c' = smooth_kernal c /\
   hole_size_threshold c' = hole_size_threshold c /\
   n_max_exceeds c' = n_max_exceeds c /\ max_dist c' = max_dist c) /\
  min_number_of_datapoints c' <> None /\
  (forall v, min_number_of_datapoints c = Some v ->
             min_number_of_datapoints c' = Some v).
Proof.
  intros ->. destruct (min_number_of_datapoints c) eqn:E;
    unfold default_min_number_of_datapoints; rewrite E; cbn [is_None].
  - rewrite E. repeat split; try discriminate. auto.
  - block_frame.
Qed.

Lemma prep_block (f : float) (c c' : config) :
  c' = default_prep_smooth_kernal f c ->
  (comparison_intervall c' = comparison_intervall c /\
   percentil c' = percentil c /\ first_last_limit c' = first_last_limit c /\
   corr_threshold c' = corr_threshold c /\
   use_column_id c' = use_column_id c) /\
  (min_number_of_datapoints c' = min_number_of_datapoints c /\
   smooth_kernal c' = smooth_kernal c /\
   hole_size_threshold c' = hole_size_threshold c /\
   n_max_exceeds c' = n_max_exceeds c /\ max_dist c' = max_dist c) /\
  prep_smooth_kernal c' <> None /\
  (forall v, prep_smooth_kernal c = Some v -> prep_smooth_kernal c' = Some v).
Proof.
  intros ->. destruct (prep_smooth_kernal c) eqn:E;
    unfold default_prep_smooth_kernal; rewrite E; cbn [is_None].
  - rewrite E. repeat split; try discriminate. auto.
  - block_frame.
Qed.

Lemma smooth_block (f : float) (c c' : config) :
  c' = default_smooth_kernal f c ->
  (comparison_intervall c' = comparison_intervall c /\
   percentil c' = percentil c /\ first_last_limit c' = first_last_limit c /\
   corr_threshold c' = corr_threshold c /\
   use_column_id c' = use_column_id c) /\
  (min_number_of_datapoints c' = min_number_of_datapoints c /\
   prep_smooth_kernal c' = prep_smooth_kernal c /\
   hole_size_threshold c' = hole_size_threshold c /\
   n_max_exceeds c' = n_max_exceeds c /\ max_dist c' = max_dist c) /\
  smooth_kernal c' <> None /\
  (forall v, smooth_kernal c = Some v -> smooth_kernal c' = Some v).
Proof.
  intros ->. destruct (smooth_kernal c) eqn:E;
    unfold default_smooth_kernal; rewrite E; cbn [is_None].
  - rewrite E. repeat split; try discriminate. auto.
  - block_frame.
Qed.

Lemma exceeds_block (f : float) (c c' : config) :
  c' = default_n_max_exceeds f c ->
  (comparison_intervall c' = comparison_intervall c /\
   percentil c' = percentil c /\ first_last_limit c' = first_last_limit c /\
   corr_threshold c' = corr_threshold c /\
   use_column_id c' = use_column_id c) /\
  (min_number_of_datapoints c' = min_number_of_datapoints c /\
   prep_smooth_kernal c' = prep_smooth_kernal c /\
   smooth_kernal c' = smooth_kernal c /\
   hole_size_threshold c' = hole_size_threshold c /\
   max_dist c' = max_dist c) /\
  n_max_exceeds c' <> None /\
  (forall v, n_max_exceeds c = Some v -> n_max_exceeds c' = Some v).
Proof.
  intros ->. destruct (n_max_exceeds c) eqn:E;
    unfold default_n_max_exceeds; rewrite E; cbn [is_None].
  - rewrite E. repeat split; try discriminate. auto.
  - block_frame.
Qed.

(** The block of the gap threshold: it may assign
    [min_number_of_datapoints]. *)
Lemma hole_block (f : float) (c c' : config) :
  c' = default_hole_size_threshold f c ->
  (comparison_intervall c' = comparison_intervall c /\
   percentil c' = percentil c /\ first_last_limit c' = first_last_limit c /\
   corr_threshold c' = corr_threshold c /\
   use_column_id c' = use_column_id c) /\
  (prep_smooth_kernal c' = prep_smooth_kernal c /\
   smooth_kernal c' = smooth_kernal c /\
   n_max_exceeds c' = n_max_exceeds c /\ max_dist c' = max_dist c) /\
  (forall v, hole_size_threshold c = Some v ->
             hole_size_threshold c' = Some v) /\
  (hole_size_threshold c' = None <->
   hole_size_threshold c = None /\ fle f 15 = false) /\
  (min_number_of_datapoints c <> None ->
   min_number_of_datapoints c' <> None) /\
  (hole_size_threshold c <> None \/ fle f 15 = true ->
   min_number_of_datapoints c' = min_number_of_datapoints c).
Proof.
  intros ->. destruct (hole_size_threshold c) as [h|] eqn:E;
    unfold default_hole_size_threshold; rewrite E; cbn [is_None].
  - rewrite E. repeat split; try discriminate; auto.
    + intros [H _]. discriminate H.
  - destruct f as [|x]; cbn [fle fgt andb].
    + cbn [hole_size_threshold min_number_of_datapoints
           set_min_number_of_datapoints]. rewrite E.
      repeat split; try discriminate; auto.
      intros [H|H]; [congruence | discriminate H].
    + assert (forall q, q <= 15 -> Qle_bool x q = true ->
                        Qle_bool x 15 = true) as Hup.
      { intros q Hq Hx. apply Qle_bool_iff. apply Qle_bool_iff in Hx.
        eapply Qle_trans; eauto. }
      destruct (Qle_bool x 1) eqn:E1; [|destruct (Qle_bool x 5) eqn:E5;
        [|destruct (Qle_bool x 10) eqn:E10; [|destruct (Qle_bool x 15) eqn:E15]]];
        cbn [negb andb hole_size_threshold min_number_of_datapoints
             comparison_intervall percentil first_last_limit corr_threshold
             use_column_id prep_smooth_kernal smooth_kernal n_max_exceeds
             max_dist set_hole_size_threshold set_min_number_of_datapoints];
        rewrite ?E; repeat split; try discriminate; auto;
        try (intros [H|H]; [congruence | discriminate H]).
      * intros [_ H]. rewrite (Hup 1) in H; [discriminate H|discriminate|easy].
      * intros [_ H]. rewrite (Hup 5) in H; [discriminate H|discriminate|easy].
      * intros [_ H]. rewrite (Hup 10) in H; [discriminate H|discriminate|easy].
      * intros [_ H]. discriminate H.
Qed.

Lemma max_dist_block (m : list sample) (c c' : config) :
  default_max_dist m c = Ok c' ->
  (comparison_intervall c' = comparison_intervall c /\
   percentil c' = percentil c /\ first_last_limit c' = first_last_limit c /\
   corr_threshold c' = corr_threshold c /\
   use_column_id c' = use_column_id c) /\
  (min_number_of_datapoints c' = min_number_of_datapoints c /\
   prep_smooth_kernal c' = prep_smooth_kernal c /\
   smooth_kernal c' = smooth_kernal c /\
   hole_size_threshold c' = hole_size_threshold c /\
   n_max_exceeds c' = n_max_exceeds c) /\
  max_dist c' <> None /\
  (forall v, max_dist c = Some v -> max_dist c' = Some v).
Proof.
  unfold default_max_dist. destruct (max_dist c) as [md|] eqn:E; cbn [is_None].
  - intros [= <-]. rewrite E. repeat split; try discriminate. auto.
  - destruct (np_max (map power m)); cbn [bind]; [|discriminate].
    intros [= <-]. repeat split; try discriminate.
Qed.

(** The fields of the resolved configuration, block by block. *)
Lemma set_defaults_fields (c c' : config) (m : list sample) :
  set_defaults c m = Ok c' ->
  (comparison_intervall c' = comparison_intervall c /\
   percentil c' = percentil c /\ first_last_limit c' = first_last_limit c /\
   corr_threshold c' = corr_threshold c /\
   use_column_id c' = use_column_id c) /\
  (min_number_of_datapoints c' <> None /\
   prep_smooth_kernal c' <> None /\ smooth_kernal c' <> None /\
   n_max_exceeds c' <> None /\ max_dist c' <> None) /\
  (hole_size_threshold c' = None <->
   hole_size_threshold c = None /\ fle (frequence_of m) 15 = false) /\
  ((forall v, prep_smooth_kernal c = Some v -> prep_smooth_kernal c' = Some v) /\
   (forall v, smooth_kernal c = Some v -> smooth_kernal c' = Some v) /\
   (forall v, hole_size_threshold c = Some v ->
              hole_size_threshold c' = Some v) /\
   (forall v, n_max_exceeds c = Some v -> n_max_exceeds c' = Some v) /\
   (forall v, max_dist c = Some v -> max_dist c' = Some v)) /\
  (hole_size_threshold c <> None \/ fle (frequence_of m) 15 = true ->
   min_number_of_datapoints c' = min_number_of_datapoints c \/
   min_number_of_datapoints c = None).
Proof.
  unfold set_defaults. cbv zeta. set (f := frequence_of m).
  set (c1 := default_min_number_of_datapoints f c).
  set (c2 := default_prep_smooth_kernal f c1).
  set (c3 := default_smooth_kernal f c2).
  set (c4 := default_hole_size_threshold f c3).
  set (c5 := default_n_max_exceeds f c4).
  intros H6. apply max_dist_block in H6.
  destruct H6 as ((A6 & B6 & C6 & D6 & E6) & (M6 & P6 & S6 & H6 & N6) & X6 & K6).
  destruct (exceeds_block f c4 c5 eq_refl)
    as ((A5 & B5 & C5 & D5 & E5) & (M5 & P5 & S5 & H5 & X5) & N5 & K5).
  destruct (hole_block f c3 c4 eq_refl)
    as ((A4 & B4 & C4 & D4 & E4) & (P4 & S4 & N4 & X4) & K4 & I4 & M4 & M4').
  destruct (smooth_block f c2 c3 eq_refl)
    as ((A3 & B3 & C3 & D3 & E3) & (M3 & P3 & H3 & N3 & X3) & S3 & K3).
  destruct (prep_block f c1 c2 eq_refl)
    as ((A2 & B2 & C2 & D2 & E2) & (M2 & S2 & H2 & N2 & X2) & P2 & K2).
  destruct (min_block f c c1 eq_refl)
    as ((A1 & B1 & C1 & D1 & E1) & (P1 & S1 & H1 & N1 & X1) & M1 & K1).
  split; [repeat split; congruence|].
  split.
  { split; [|split; [|split; [|split]]].
    - rewrite M6, M5. apply M4. rewrite M3, M2. exact M1.
    - rewrite P6, P5, P4, P3. exact P2.
    - rewrite S6, S5, S4. exact S3.
    - rewrite N6. exact N5.
    - exact X6. }
  split.
  { rewrite H6, H5, I4, H3, H2, H1. reflexivity. }
  split.
  { split; [|split; [|split; [|split]]]; intros v Hv.
    - rewrite P6, P5, P4, P3. apply K2. now rewrite P1.
    - rewrite S6, S5, S4. apply K3. now rewrite S2, S1.
    - rewrite H6, H5. apply K4. now rewrite H3, H2, H1.
    - rewrite N6. apply K5. now rewrite N4, N3, N2, N1.
    - apply K6. now rewrite X5, X4, X3, X2, X1. }
  intros Hk. destruct (min_number_of_datapoints c) as [v|] eqn:Ev; [|now right].
  left. rewrite M6, M5, M4'; [|now rewrite H3, H2, H1].
  rewrite M3, M2. now apply K1.
Qed.

(** X6: on a non-empty stream default resolution succeeds and leaves
    every tunable but the gap threshold with a value; the gap threshold
    ends unset exactly when it was unset and the compared frequency is NaN
    or above 15. *)
Theorem X6_defaults_resolved (c : config) (m : list sample) :
  m <> [] ->
  exists c', set_defaults c m = Ok c' /\
    min_number_of_datapoints c' <> None /\
    prep_smooth_kernal c' <> None /\
    smooth_kernal c' <> None /\
    n_max_exceeds c' <> None /\
    max_dist c' <> None /\
    (hole_size_threshold c' = None <->
     hole_size_threshold c = None /\ fle (frequence_of m) 15 = false).
Proof.
  intros Hm.
  assert (exists c', set_defaults c m = Ok c') as [c' Hc'].
  { unfold set_defaults. cbv zeta.
    match goal with |- exists c', default_max_dist m ?c0 = _ =>
      destruct (default_max_dist_ok m c0 Hm) as (c' & Hc' & _)
    end.
    now exists c'. }
  exists c'. split; [exact Hc'|].
  destruct (set_defaults_fields _ _ _ Hc')
    as (_ & (M & P & S & N & X) & I & _).
  split; [exact M|]. split; [exact P|]. split; [exact S|].
  split; [exact N|]. split; [exact X | exact I].
Qed.

Lemma X6_defaults_resolved_witness :
  exists c', set_defaults unset five_minute_stream = Ok c' /\
    prep_smooth_kernal c' <> None /\ hole_size_threshold c' = None.
Proof.
  destruct (X6_defaults_resolved unset five_minute_stream)
    as (c' & H & _ & Hp & _ & _ & _ & Hh); [discriminate|].
  exists c'. split; [exact H|]. split; [exact Hp|].
  apply Hh. split; reflexivity.
Defined.

(** X7: default resolution never changes a value the caller gave, with one
    exception: [min_number_of_datapoints] is kept only if a gap threshold
    was given too or the compared frequency is at most 15.  The arguments
    without a default are never changed. *)
Theorem X7_given_values_kept (c c' : config) (m : list sample) :
  set_defaults c m = Ok c' ->
  (comparison_intervall c' = comparison_intervall c /\
   percentil c' = percentil c /\
   first_last_limit c' = first_last_limit c /\
   corr_threshold c' = corr_threshold c /\
   use_column_id c' = use_column_id c) /\
  (forall v, prep_smooth_kernal c = Some v -> prep_smooth_kernal c' = Some v) /\
  (forall v, smooth_kernal c = Some v -> smooth_kernal c' = Some v) /\
  (forall v, hole_size_threshold c = Some v ->
             hole_size_threshold c' = Some v) /\
  (forall v, n_max_exceeds c = Some v -> n_max_exceeds c' = Some v) /\
  (forall v, max_dist c = Some v -> max_dist c' = Some v) /\
  (forall v, min_number_of_datapoints c = Some v ->
             hole_size_threshold c <> None \/
             fle (frequence_of m) 15 = true ->
             min_number_of_datapoints c' = Some v).
Proof.
  intros H.
  destruct (set_defaults_fields _ _ _ H)
    as (Hsame & _ & _ & (P & S & Hh & N & X) & M).
  split; [exact Hsame|]. split; [exact P|]. split; [exact S|].
  split; [exact Hh|]. split; [exact N|]. split; [exact X|].
  intros v Hv Hk. destruct (M Hk) as [E|E]; congruence.
Qed.

Lemma X7_given_values_kept_witness :
  exists c',
    set_defaults (set_n_max_exceeds (Some 7%Z) unset) five_minute_stream
    = Ok c' /\
    n_max_exceeds c' = Some 7%Z.
Proof.
  destruct (set_defaults (set_n_max_exceeds (Some 7%Z) unset)
              five_minute_stream) as [c'|e] eqn:E;
    [|vm_compute in E; discriminate E].
  exists c'. split; [reflexivity|].
  destruct (X7_given_values_kept _ _ _ E) as (_ & _ & _ & _ & Hn & _).
  apply Hn. reflexivity.
Defined.

Lemma max_dist_before_last_block (f : float) (c : config) :
  max_dist
    (default_n_max_exceeds f
       (default_hole_size_threshold f
          (default_smooth_kernal f
             (default_prep_smooth_kernal f
                (default_min_number_of_datapoints f c)))))
  = max_dist c.
Proof.
  set (c1 := default_min_number_of_datapoints f c).
  set (c2 := default_prep_smooth_kernal f c1).
  set (c3 := default_smooth_kernal f c2).
  set (c4 := default_hole_size_threshold f c3).
  destruct (exceeds_block f c4 _ eq_refl) as (_ & (_ & _ & _ & _ & E5) & _).
  destruct (hole_block f c3 c4 eq_refl) as (_ & (_ & _ & _ & E4) & _).
  destruct (smooth_block f c2 c3 eq_refl) as (_ & (_ & _ & _ & _ & E3) & _).
  destruct (prep_block f c1 c2 eq_refl) as (_ & (_ & _ & _ & _ & E2) & _).
  destruct (min_block f c c1 eq_refl) as (_ & (_ & _ & _ & _ & E1) & _).
  congruence.
Qed.

(** X8: an unset [max_dist] is resolved to 0.3 times the largest power of
    the stream. *)
Theorem X8_max_dist_default (c : config) (m : list sample) :
  max_dist c = None -> m <> [] ->
  exists c' p,
    set_defaults c m = Ok c' /\
    max_dist c' = Some (p * (3 # 10)) /\
    In p (map power m) /\
    Forall (fun x => x <= p) (map power m).
Proof.
  intros Hmd Hm. unfold set_defaults. cbv zeta.
  set (c5 := default_n_max_exceeds _ _).
  assert (max_dist c5 = None) as H5.
  { unfold c5. now rewrite max_dist_before_last_block. }
  assert (map power m <> []) as Hne by (destruct m; [congruence|discriminate]).
  destruct (np_max_spec _ Hne) as (p & Hp & Hin & Hall).
  unfold default_max_dist. rewrite H5, Hp. cbn [is_None bind].
  eexists. exists p. split; [reflexivity|]. now split.
Qed.

Lemma X8_max_dist_default_witness :
  exists c',
    set_defaults unset (bell_day 0 1) = Ok c' /\
    exists p, max_dist c' = Some (p * (3 # 10)) /\ p == 30.
Proof.
  destruct (X8_max_dist_default unset (bell_day 0 1))
    as (c' & p & H & Hmd & Hin & Hall); [reflexivity | discriminate |].
  exists c'. split; [exact H|]. exists p. split; [exact Hmd|].
  apply Qle_antisym.
  - vm_compute in Hin.
    repeat (destruct Hin as [<-|Hin]; [discriminate|]). destruct Hin.
  - rewrite Forall_forall in Hall. apply Hall. vm_compute. tauto.
Defined.
(** ** The deviation check *)

Lemma check_distance_monotone (comp_data : list comp_row)
  (max_dist max_dist' : Q) (n_max_exceeds n_max_exceeds' : Z) :
  max_dist <= max_dist' -> (n_max_exceeds <= n_max_exceeds')%Z ->
  _check_distance comp_data max_dist n_max_exceeds = true ->
  _check_distance comp_data max_dist' n_max_exceeds' = true.
Proof.
  intros Hd Hn. unfold _check_distance.
  assert (List.length (exceeds comp_data max_dist')
          <= List.length (exceeds comp_data max_dist))%nat as Hlen.
  { unfold exceeds.
    induction (map (fun r => Qabs (c_power r - c_tmp_power r)) comp_data)
      as [|d l IH]; simpl; [lia|].
    destruct (Qlt_bool max_dist' d) eqn:E'.
    - apply Qlt_bool_iff in E'.
      assert (Qlt_bool max_dist d = true) as ->.
      { apply Qlt_bool_iff. eapply Qle_lt_trans; eauto. }
      simpl. lia.
    - destruct (Qlt_bool max_dist d); simpl; lia. }
  rewrite !Z.gtb_ltb.
  destruct (Z.ltb_spec n_max_exceeds
              (Z.of_nat (List.length (exceeds comp_data max_dist))));
    [discriminate|].
  destruct (Z.ltb_spec n_max_exceeds'
              (Z.of_nat (List.length (exceeds comp_data max_dist'))));
    [lia | reflexivity].
Qed.

(** X9: the deviation check is monotone: a day that passes it still passes
    when [max_dist] or [n_max_exceeds] is raised. *)
Theorem X9_check_distance_monotone (comp_data : list comp_row)
  (max_dist max_dist' : Q) (n_max_exceeds n_max_exceeds' : Z) :
  max_dist <= max_dist' -> (n_max_exceeds <= n_max_exceeds')%Z ->
  _check_distance comp_data max_dist n_max_exceeds = true ->
  _check_distance comp_data max_dist' n_max_exceeds' = true.
Proof. apply check_distance_monotone. Qed.

Lemma X9_check_distance_monotone_witness :
  _check_distance
    (compare_day (sort by_day_time (add_daytime (Plain (bell_day 0 1))))
       (get_clearskytemplate (Plain (bell_day 0 1)) (9 # 10) None None))
    2 4 = true.
Proof.
  apply (X9_check_distance_monotone _ 1 2 3 4);
    [discriminate | lia | vm_compute; reflexivity].
Defined.

(** X10: the deviation check passes whenever [n_max_exceeds] is at least
    the number of aligned pairs, and fails for every day when
    [n_max_exceeds] is negative. *)
Theorem X10_check_distance_bounds (comp_data : list comp_row) (max_dist : Q)
  (n_max_exceeds : Z) :
  ((Z.of_nat (List.length comp_data) <= n_max_exceeds)%Z ->
   _check_distance comp_data max_dist n_max_exceeds = true) /\
  ((n_max_exceeds < 0)%Z ->
   _check_distance comp_data max_dist n_max_exceeds = false).
Proof.
  unfold _check_distance. rewrite Z.gtb_ltb.
  assert (List.length (exceeds comp_data max_dist)
          <= List.length comp_data)%nat as Hlen.
  { unfold exceeds. etransitivity; [apply filter_length_le|].
    now rewrite length_map. }
  split; intros H;
    destruct (Z.ltb_spec n_max_exceeds
                (Z.of_nat (List.length (exceeds comp_data max_dist))));
    try reflexivity; lia.
Qed.

Lemma X10_check_distance_bounds_witness :
  _check_distance
    (compare_day (sort by_day_time (add_daytime (Plain (bell_day 0 1))))
       (get_clearskytemplate (Plain (bell_day 0 1)) (9 # 10) None None))
    0 (-1) = false.
Proof. apply X10_check_distance_bounds. lia. Defined.

(** ** The template and the alignment *)

Lemma length_distinct_le {K : Type} (eqb : K -> K -> bool) (ks : list K) :
  (List.length (distinct eqb ks) <= List.length ks)%nat.
Proof.
  induction ks as [|k ks IH]; simpl; [lia|].
  pose proof (filter_length_le (fun k' => negb (eqb k k')) (distinct eqb ks)).
  lia.
Qed.

(** X11: whatever the smoothing, the template has one row per distinct
    [day_time] of the window, in strictly ascending order: every row of the
    window has its [day_time] in the template, every template key is the
    [day_time] of a row, and the template is no longer than the window. *)
Theorem X11_template_keys (month_data : list sample) (percentil : Q)
  (prep smooth : option positive) :
  let cst := get_clearskytemplate (Plain month_data) percentil prep smooth in
  StronglySorted Qlt (map t_day_time cst) /\
  (forall s, In s month_data ->
     exists t, In t cst /\ t_day_time t == day_time_of (time s)) /\
  (forall t, In t cst ->
     exists s, In s month_data /\ t_day_time t = day_time_of (time s)) /\
  (List.length cst <= List.length month_data)%nat.
Proof.
  intros cst.
  destruct (template_columns (Plain month_data) percentil prep smooth)
    as (Hk & _). fold cst in Hk. rewrite envelope_keys in Hk.
  cbn [add_daytime] in Hk.
  split; [apply template_keys_sorted|]. split; [|split].
  - intros s Hs.
    assert (In (day_time_of (time s))
               (map day_time (sort by_day_time (map stamp month_data))))
      as Hin.
    { apply in_map_iff. exists (stamp s). split; [reflexivity|].
      apply in_sort. now apply in_map. }
    destruct (distinct_covers Qeq_bool Qeq_bool_refl Qeq_bool_trans _ _ Hin)
      as (k & Hk' & Hkq).
    rewrite <- Hk in Hk'. apply in_map_iff in Hk'.
    destruct Hk' as (t & <- & Ht). exists t. split; [exact Ht|].
    now apply Qeq_bool_iff.
  - intros t Ht. apply (in_map t_day_time) in Ht. rewrite Hk in Ht.
    apply in_distinct, in_map_iff in Ht. destruct Ht as (r & <- & Hr).
    apply in_sort, in_map_iff in Hr. destruct Hr as (s & <- & Hs).
    now exists s.
  - rewrite <- (length_map t_day_time cst), Hk.
    etransitivity; [apply length_distinct_le|].
    now rewrite length_map, length_sort, length_map.
Qed.

Lemma rolling_mean_short (w : positive) (col : column) :
  (List.length col < Pos.to_nat w)%nat ->
  Forall (fun v => v = None) (rolling_mean w col).
Proof.
  intros Hlen. unfold rolling_mean. apply Forall_map, Forall_forall.
  intros i _.
  set (n := Pos.to_nat w) in *.
  assert ((n + 1) / 2 <= n)%nat as Hr.
  { apply Nat.Div0.div_le_upper_bound. lia. }
  destruct (Nat.leb_spec (n - (n + 1) / 2) i); [|reflexivity].
  destruct (Nat.leb_spec (i + (n + 1) / 2) (List.length col)); [lia|].
  reflexivity.
Qed.

Lemma asof_backward_in (cst : list template_row) (k : Q) (t : template_row) :
  asof_backward cst k = Some t -> In t cst.
Proof.
  unfold asof_backward.
  assert (forall acc,
            fold_left (fun acc r =>
                         if Qle_bool (t_day_time r) k then Some r else acc)
                      cst acc = Some t ->
            In t cst \/ acc = Some t) as H.
  { induction cst as [|a cst IH]; intros acc; simpl; [now right|].
    intros E. destruct (IH _ E) as [Hin|Hacc]; [now left; right|].
    destruct (Qle_bool (t_day_time a) k); [|now right].
    injection Hacc as ->. now left; left. }
  intros E. destruct (H None E) as [Hin|Hd]; [exact Hin | discriminate Hd].
Qed.

Lemma compare_day_no_template (day_data : list timed)
  (cst : list template_row) :
  Forall (fun t => tmp_power t = None) cst ->
  compare_day day_data cst = [].
Proof.
  intros Hnull. rewrite Forall_forall in Hnull.
  induction day_data as [|r l IH]; [reflexivity|].
  rewrite compare_day_cons, IH, app_nil_r.
  destruct (asof_backward cst (day_time r)) as [t|] eqn:E; [|reflexivity].
  rewrite (Hnull t (asof_backward_in _ _ _ E)).
  now destruct (t_power t).
Qed.

(** X12: when the window has fewer distinct [day_time] values than the
    post-smoothing window is wide, every template value is null, no sample
    of any day is aligned, and no day is accepted against that template. *)
Theorem X12_short_window_accepts_nothing (month_data : list sample)
  (percentil : Q) (prep : option positive) (w : positive) :
  let cst := get_clearskytemplate (Plain month_data) percentil prep (Some w) in
  (List.length cst < Pos.to_nat w)%nat ->
  Forall (fun t => tmp_power t = None) cst /\
  (forall day_data, compare_day day_data cst = []) /\
  (forall c day rec, evaluate_day c cst day <> Ok (Some rec)).
Proof.
  intros cst Hlen.
  assert (Forall (fun t => tmp_power t = None) cst) as Hnull.
  { destruct (template_columns (Plain month_data) percentil prep (Some w))
      as (_ & _ & Ht). fold cst in Ht.
    assert (Forall (fun v => v = None) (map tmp_power cst)) as Hn.
    { rewrite Ht. apply rolling_mean_short.
      unfold cst, get_clearskytemplate in Hlen.
      rewrite length_map, length_combine, length_rolling_mean, length_map
        in Hlen.
      rewrite length_map. lia. }
    now apply Forall_map in Hn. }
  split; [exact Hnull|]. split.
  - intros day_data. now apply compare_day_no_template.
  - intros c day rec H. apply evaluate_day_accepted in H.
    destruct H as (_ & Hgt & _).
    rewrite (compare_day_no_template _ cst Hnull) in Hgt. discriminate Hgt.
Qed.

Lemma X12_short_window_witness :
  compare_day (add_daytime (Plain (bell_day 1 1)))
    (get_clearskytemplate (Plain (bell_day 0 1)) (9 # 10) None
       (Some 60%positive))
  = [].
Proof.
  apply (X12_short_window_accepts_nothing (bell_day 0 1) (9 # 10) None 60).
  vm_compute. lia.
Defined.

Lemma StronglySorted_app_inv {A : Type} (R : A -> A -> Prop) (l1 l2 : list A) :
  StronglySorted R (l1 ++ l2) ->
  StronglySorted R l1 /\ forall a b, In a l1 -> In b l2 -> R a b.
Proof.
  induction l1 as [|x l1 IH]; simpl; intros H.
  - split; [constructor | intros a b []].
  - apply StronglySorted_inv in H. destruct H as [Hs Hx].
    destruct (IH Hs) as [Hs1 H12]. split.
    + constructor; [exact Hs1|]. rewrite Forall_forall in *.
      intros y Hy. apply Hx, in_or_app. now left.
    + intros a b [<-|Ha] Hb; [|now apply H12].
      rewrite Forall_forall in Hx. apply Hx, in_or_app. now right.
Qed.

Lemma asof_backward_snoc (cst : list template_row) (x : template_row) (k : Q) :
  asof_backward (cst ++ [x]) k
  = if Qle_bool (t_day_time x) k then Some x else asof_backward cst k.
Proof. unfold asof_backward. now rewrite fold_left_app. Qed.

Lemma asof_backward_spec (cst : list template_row) (k : Q) :
  StronglySorted Qlt (map t_day_time cst) ->
  match asof_backward cst k with
  | Some t =>
      In t cst /\ t_day_time t <= k /\
      forall t', In t' cst -> t_day_time t' <= k ->
                 t_day_time t' <= t_day_time t
  | None => forall t', In t' cst -> k < t_day_time t'
  end.
Proof.
  induction cst as [|x cst IH] using rev_ind; intros Hs.
  - intros t' [].
  - rewrite map_app in Hs. apply StronglySorted_app_inv in Hs.
    destruct Hs as [Hs Hlt]. specialize (IH Hs).
    rewrite asof_backward_snoc.
    destruct (Qle_bool (t_day_time x) k) eqn:E.
    + apply Qle_bool_iff in E. split; [apply in_or_app; right; now left|].
      split; [exact E|]. intros t' Ht' _. apply in_app_or in Ht'.
      destruct Ht' as [Ht'|[<-|[]]]; [|apply Qle_refl].
      apply Qlt_le_weak, Hlt; [now apply in_map | now left].
    + assert (k < t_day_time x) as Hx.
      { apply Qnot_le_lt. intros L. apply Qle_bool_iff in L. congruence. }
      destruct (asof_backward cst k) as [t|].
      * destruct IH as (Hin & Hle & Hmax). split; [apply in_or_app; now left|].
        split; [exact Hle|]. intros t' Ht' Hk. apply in_app_or in Ht'.
        destruct Ht' as [Ht'|[<-|[]]]; [now apply Hmax|].
        exfalso. apply (Qlt_not_le _ _ Hx Hk).
      * intros t' Ht'. apply in_app_or in Ht'.
        destruct Ht' as [Ht'|[<-|[]]]; [now apply IH | exact Hx].
Qed.

(** X13: a [day_time] is aligned with the template row of the greatest key
    that does not exceed it; it has no partner exactly when every template
    key is greater. *)
Theorem X13_backward_alignment (month_data : list sample) (percentil : Q)
  (prep smooth : option positive) (k : Q) :
  let cst := get_clearskytemplate (Plain month_data) percentil prep smooth in
  match asof_backward cst k with
  | Some t =>
      In t cst /\ t_day_time t <= k /\
      forall t', In t' cst -> t_day_time t' <= k ->
                 t_day_time t' <= t_day_time t
  | None => forall t', In t' cst -> k < t_day_time t'
  end.
Proof. intros cst. apply asof_backward_spec, template_keys_sorted. Qed.

(** X14: the aligned pairs of a day are exactly its rows whose partner in
    the template has both its envelope value and its template value. *)
Theorem X14_aligned_pairs (day_data : list timed) (cst : list template_row)
  (cr : comp_row) :
  In cr (compare_day day_data cst) <->
  In (c_row cr) day_data /\
  exists t, asof_backward cst (day_time (c_row cr)) = Some t /\
            t_power t = Some (c_power_right cr) /\
            tmp_power t = Some (c_tmp_power cr).
Proof.
  induction day_data as [|r l IH]; [simpl; tauto|].
  rewrite compare_day_cons, in_app_iff, IH. clear IH. split.
  - intros [H|(Hin & t & Ht)].
    + destruct (asof_backward cst (day_time r)) as [t|] eqn:E; [|destruct H].
      destruct (t_power t) as [p|] eqn:Ep; [|destruct H].
      destruct (tmp_power t) as [v|] eqn:Ev; [|destruct H].
      destruct H as [<-|[]]. cbn [c_row c_power_right c_tmp_power].
      split; [now left|]. now exists t.
    + split; [now right|]. now exists t.
  - intros ([E|Hin] & t & Ht & Hp & Hv).
    + left. rewrite E, Ht, Hp, Hv. left. now destruct cr.
    + right. split; [exact Hin|]. now exists t.
Qed.

(** ** The verdict on a day *)

(** Everything an accepted day went through. *)
Lemma evaluate_day_inversion (c : config) (cst : list template_row)
  (day : list sample) (rec : list clear_sky_row) :
  evaluate_day c cst day = Ok (Some rec) ->
  let day_data := sort by_day_time (add_daytime (Plain day)) in
  let comp_data := compare_day day_data cst in
  let r := corrcoef (map c_power comp_data) (map c_tmp_power comp_data) in
  gated c day /\
  exists md nm,
    max_dist c = Some md /\ n_max_exceeds c = Some nm /\
    corr_gt r (corr_threshold c) = true /\
    _check_distance comp_data md nm = true /\
    rec = map (fun x => mkClearSky x r) day_data.
Proof.
  intros H day_data comp_data r. unfold evaluate_day in H. unfold gated.
  fold day_data in H |- *.
  destruct (min_number_of_datapoints c) as [mp|]; cbn [required bind] in H;
    [|discriminate].
  destruct (Z.gtb_spec (Z.of_nat (List.length day)) mp) as [Hlen|];
    [|discriminate].
  destruct (first_item day_data) as [first|]; cbn [bind] in H; [|discriminate].
  destruct (last_item day_data) as [last|]; cbn [bind] in H; [|discriminate].
  destruct (Qle_bool (power (base first)) (first_last_limit c)) eqn:Ef;
    [|discriminate].
  destruct (Qle_bool (power (base last)) (first_last_limit c)) eqn:El;
    [|discriminate].
  cbn [andb] in H.
  destruct (_bad_holes_check (WithDayTime day_data) (hole_size_threshold c))
    as [[check hs]|] eqn:Eh; cbn [bind] in H; [|discriminate].
  destruct check; [|discriminate].
  fold comp_data in H. fold r in H.
  destruct (corr_gt r (corr_threshold c)) eqn:Eg; [|discriminate].
  destruct (max_dist c) as [md|]; cbn [required bind] in H; [|discriminate].
  destruct (n_max_exceeds c) as [nm|]; cbn [required bind] in H;
    [|discriminate].
  destruct (_check_distance comp_data md nm) eqn:Ed; [|discriminate].
  injection H as <-. split.
  - exists mp, first, last, hs. apply Qle_bool_iff in Ef, El.
    repeat split; auto; lia.
  - exists md, nm. now repeat split.
Qed.

(** X15: an accepted day passed the three checks of the quality gate; its
    frame holds the rows of the day in ascending [day_time] order, all with
    the same [Corr]. *)
Theorem X15_accepted_day_passed_gate (c : config) (cst : list template_row)
  (day : list sample) (rec : list clear_sky_row) :
  evaluate_day c cst day = Ok (Some rec) ->
  gated c day /\
  StronglySorted Qle (map (fun r => day_time (row r)) rec) /\
  Permutation (map (fun r => base (row r)) rec) day /\
  exists v, Forall (fun r => Corr r = v) rec.
Proof.
  intros H. apply evaluate_day_inversion in H.
  destruct H as (Hg & md & nm & _ & _ & _ & _ & ->).
  split; [exact Hg|]. rewrite !map_map. cbn [row Corr]. split; [|split].
  - apply day_times_sorted.
  - rewrite (sort_perm by_day_time). cbn [add_daytime].
    rewrite map_map. cbn [stamp base]. now rewrite map_id.
  - match goal with |- context [mkClearSky _ ?r] => exists r end.
    apply Forall_map, Forall_forall. intros x _. reflexivity.
Qed.

(** X16: a day with at most [min_number_of_datapoints] samples, and a day
    whose first or last sample (by [day_time]) has a power above
    [first_last_limit], is rejected without an error, whatever its shape
    and whatever the other thresholds. *)
Theorem X16_rejected_by_gate (c : config) (cst : list template_row)
  (day : list sample) (min_points : Z) :
  min_number_of_datapoints c = Some min_points ->
  let day_data := sort by_day_time (add_daytime (Plain day)) in
  ((Z.of_nat (List.length day) <= min_points)%Z ->
   evaluate_day c cst day = Ok None) /\
  (forall first last,
      first_item day_data = Ok first -> last_item day_data = Ok last ->
      first_last_limit c < power (base first) \/
      first_last_limit c < power (base last) ->
      evaluate_day c cst day = Ok None).
Proof.
  intros Hmp day_data. unfold evaluate_day. rewrite Hmp.
  cbn [required bind]. fold day_data. split.
  - intros Hlen.
    destruct (Z.gtb_spec (Z.of_nat (List.length day)) min_points);
      [lia | reflexivity].
  - intros first last -> -> Hlim. cbn [bind].
    destruct (Z.of_nat (List.length day) >? min_points)%Z; [|reflexivity].
    assert (Qle_bool (power (base first)) (first_last_limit c)
            && Qle_bool (power (base last)) (first_last_limit c) = false)
      as ->; [|reflexivity].
    destruct Hlim as [L|L]; apply Qle_bool_false in L; rewrite L;
      [reflexivity | apply andb_false_r].
Qed.

(** X17: with the gap threshold still unset, a day of more than 4 and more
    than [min_number_of_datapoints] samples that starts and ends within
    [first_last_limit] raises a type error instead of a verdict. *)
Theorem X17_unset_gap_threshold_raises (c : config) (cst : list template_row)
  (day : list sample) (min_points : Z) (first last : timed) :
  hole_size_threshold c = None ->
  min_number_of_datapoints c = Some min_points ->
  (Z.of_nat (List.length day) > min_points)%Z ->
  (4 < List.length day)%nat ->
  let day_data := sort by_day_time (add_daytime (Plain day)) in
  first_item day_data = Ok first -> last_item day_data = Ok last ->
  power (base first) <= first_last_limit c ->
  power (base last) <= first_last_limit c ->
  evaluate_day c cst day = Raise TypeError.
Proof.
  intros Hh Hmp Hlen H4 day_data Hf Hl Pf Pl. unfold evaluate_day.
  rewrite Hmp. cbn [required bind]. fold day_data. rewrite Hf, Hl.
  cbn [bind].
  destruct (Z.gtb_spec (Z.of_nat (List.length day)) min_points); [|lia].
  apply Qle_bool_iff in Pf, Pl. rewrite Pf, Pl. cbn [andb].
  unfold _bad_holes_check. cbn [add_daytime]. rewrite Hh.
  set (array := map day_time (sort by_day_time day_data)).
  assert (List.length array = List.length day) as Ha.
  { unfold array, day_data. cbn [add_daytime].
    now rewrite length_map, !length_sort, length_map. }
  rewrite Ha. destruct (Nat.ltb_spec 4 (List.length day)); [|lia].
  assert (diffs array <> []) as Hne.
  { intros E. apply (f_equal (@List.length Q)) in E.
    rewrite length_diffs, Ha in E. simpl in E. lia. }
  destruct (np_max_spec _ Hne) as (mh & -> & _). reflexivity.
Qed.

Lemma evaluate_day_total (c : config) (cst : list template_row)
  (day : list sample) :
  min_number_of_datapoints c <> None ->
  hole_size_threshold c <> None ->
  max_dist c <> None ->
  n_max_exceeds c <> None ->
  day <> [] ->
  exists v, evaluate_day c cst day = Ok v.
Proof.
  intros Hmp Hh Hmd Hnm Hday. unfold evaluate_day.
  destruct (min_number_of_datapoints c) as [mp|]; [|congruence].
  destruct (hole_size_threshold c) as [thr|] eqn:Eh; [|congruence].
  destruct (max_dist c) as [md|]; [|congruence].
  destruct (n_max_exceeds c) as [nm|]; [|congruence].
  cbn [required bind].
  destruct (_ >? _)%Z; [|now eexists].
  set (day_data := sort by_day_time (add_daytime (Plain day))).
  assert (List.length day_data = List.length day) as Hlen.
  { unfold day_data. cbn [add_daytime]. now rewrite length_sort, length_map. }
  assert (day_data <> []) as Hne.
  { intros E. rewrite E in Hlen. destruct day; [congruence|discriminate]. }
  assert (exists first, first_item day_data = Ok first) as [first ->].
  { destruct day_data; [congruence|]. now eexists. }
  assert (exists last, last_item day_data = Ok last) as [last ->].
  { unfold last_item. destruct (rev day_data) eqn:E; [|now eexists].
    apply (f_equal (@rev timed)) in E. rewrite rev_involutive in E.
    now rewrite E in Hne. }
  cbn [bind]. destruct (_ && _); [|now eexists].
  unfold _bad_holes_check. cbn [add_daytime].
  set (array := map day_time (sort by_day_time day_data)).
  destruct (Nat.ltb_spec 4 (List.length array)) as [H4|H4].
  - assert (diffs array <> []) as Hd.
    { intros E. apply (f_equal (@List.length Q)) in E.
      rewrite length_diffs in E. simpl in E. lia. }
    destruct (np_max_spec _ Hd) as (mh & -> & _). cbn [bind].
    destruct (Qlt_bool mh thr); cbn [bind]; [|now eexists].
    destruct (corr_gt _ _); [|now eexists].
    destruct (_check_distance _ _ _); now eexists.
  - cbn [bind]. now eexists.
Qed.

(** X18: with every threshold set, the verdict on a non-empty day is never
    an error. *)
Theorem X18_evaluate_day_never_raises (c : config) (cst : list template_row)
  (day : list sample) :
  min_number_of_datapoints c <> None ->
  hole_size_threshold c <> None ->
  max_dist c <> None ->
  n_max_exceeds c <> None ->
  day <> [] ->
  exists v, evaluate_day c cst day = Ok v.
Proof. apply evaluate_day_total. Qed.

Lemma corr_gt_monotone (x y : list Q) (t t' : Q) :
  List.length x = List.length y -> t <= t' ->
  corr_gt (corrcoef x y) t' = true -> corr_gt (corrcoef x y) t = true.
Proof.
  intros Hlen Ht H. apply corr_gt_pearson in H; [|exact Hlen].
  apply corr_gt_pearson; [exact Hlen|].
  destruct H as (rho & E & Hr). exists rho. split; [exact E|].
  apply Qle_Rle in Ht. lra.
Qed.

(** X19: loosening thresholds never loses a day.  If a configuration is at
    least as permissive as another in every threshold (fewer points
    required, higher start/end limit, larger gap allowed, lower correlation
    required, larger deviation and more exceeding pairs allowed), every day
    accepted under the stricter one is accepted under it, with the same
    frame. *)
Theorem X19_gate_monotone (c c' : config) (cst : list template_row)
  (day : list sample) (rec : list clear_sky_row)
  (mp mp' nm nm' : Z) (h h' md md' : Q) :
  min_number_of_datapoints c = Some mp ->
  min_number_of_datapoints c' = Some mp' -> (mp <= mp')%Z ->
  first_last_limit c' <= first_last_limit c ->
  hole_size_threshold c = Some h ->
  hole_size_threshold c' = Some h' -> h' <= h ->
  corr_threshold c <= corr_threshold c' ->
  max_dist c = Some md -> max_dist c' = Some md' -> md' <= md ->
  n_max_exceeds c = Some nm -> n_max_exceeds c' = Some nm' -> (nm' <= nm)%Z ->
  evaluate_day c' cst day = Ok (Some rec) ->
  evaluate_day c cst day = Ok (Some rec).
Proof.
  intros Hmp Hmp' Lmp Llim Hh Hh' Lh Lct Hmd Hmd' Lmd Hnm Hnm' Lnm H.
  apply evaluate_day_inversion in H. cbv zeta in H.
  destruct H as (Hg & md0 & nm0 & E1 & E2 & Hgt & Hcd & ->).
  rewrite Hmd' in E1. rewrite Hnm' in E2.
  injection E1 as <-. injection E2 as <-.
  assert (gated c day) as Hg0.
  { destruct Hg as (mp0 & first & last & hs & Gm & Gl & Gf & Gla & Pf & Pl & Gh).
    rewrite Hmp' in Gm. injection Gm as <-.
    cbv zeta in *. rewrite Hh' in Gh.
    unfold _bad_holes_check in Gh.
    exists mp, first, last, hs. rewrite Hh. unfold _bad_holes_check.
    split; [exact Hmp|]. split; [lia|]. split; [exact Gf|].
    split; [exact Gla|].
    split; [eapply Qle_trans; eauto|]. split; [eapply Qle_trans; eauto|].
    destruct (_ <? _)%nat; [|discriminate Gh].
    destruct (np_max _) as [mh|]; cbn [bind] in *; [|discriminate Gh].
    destruct (Qlt_bool mh h') eqn:Eq; [|discriminate Gh].
    apply Qlt_bool_iff in Eq.
    assert (Qlt_bool mh h = true) as ->.
    { apply Qlt_bool_iff. eapply Qlt_le_trans; eauto. }
    exact Gh. }
  rewrite (evaluate_day_gated c cst day md nm Hg0 Hmd Hnm).
  apply corr_gt_monotone with (t := corr_threshold c) in Hgt;
    [|now rewrite !length_map | exact Lct].
  rewrite Hgt. cbn [andb].
  pose proof (check_distance_monotone _ _ _ _ _ Lmd Lnm Hcd) as Hc.
  unfold _check_distance in Hc. rewrite Z.gtb_ltb in Hc.
  destruct (Z.ltb_spec nm (Z.of_nat (List.length (exceeds
      (compare_day (sort by_day_time (add_daytime (Plain day))) cst) md))));
    [discriminate Hc|].
  destruct (Z.leb_spec (Z.of_nat (List.length (exceeds
      (compare_day (sort by_day_time (add_daytime (Plain day))) cst) md))) nm);
    [reflexivity | lia].
Qed.

Lemma X15_accepted_day_witness :
  exists rec,
    evaluate_day (tuned (30 * us_per_day))
      (get_clearskytemplate (Plain (bell_day 1 1)) (9 # 10)
         (Some 1%positive) (Some 1%positive)) (bell_day 1 1)
    = Ok (Some rec) /\
    gated (tuned (30 * us_per_day)) (bell_day 1 1) /\
    Permutation (map (fun r => base (row r)) rec) (bell_day 1 1).
Proof.
  assert (exists rec,
             evaluate_day (tuned (30 * us_per_day))
               (get_clearskytemplate (Plain (bell_day 1 1)) (9 # 10)
                  (Some 1%positive) (Some 1%positive)) (bell_day 1 1)
             = Ok (Some rec)) as [rec E]
      by (eexists; vm_compute; reflexivity).
  exists rec. split; [exact E|].
  destruct (X15_accepted_day_passed_gate _ _ _ _ E) as (Hg & _ & Hp & _).
  now split.
Defined.

Lemma X16_rejected_by_gate_witness :
  evaluate_day (tuned (30 * us_per_day)) [] (skipn 1 (bell_day 1 1))
  = Ok None.
Proof.
  eapply (proj2 (X16_rejected_by_gate (tuned (30 * us_per_day)) []
                   (skipn 1 (bell_day 1 1)) 4 eq_refl)).
  - vm_compute. reflexivity.
  - vm_compute. reflexivity.
  - left. reflexivity.
Defined.

Lemma X17_unset_gap_threshold_witness :
  evaluate_day (set_hole_size_threshold None (tuned (30 * us_per_day))) []
    (bell_day 1 1)
  = Raise TypeError.
Proof.
  eapply (X17_unset_gap_threshold_raises
            (set_hole_size_threshold None (tuned (30 * us_per_day))) []
            (bell_day 1 1) 4).
  - reflexivity.
  - reflexivity.
  - reflexivity.
  - simpl. lia.
  - vm_compute. reflexivity.
  - vm_compute. reflexivity.
  - vm_compute. discriminate.
  - vm_compute. discriminate.
Defined.

Lemma X18_evaluate_day_never_raises_witness :
  exists v, evaluate_day (tuned (30 * us_per_day)) [] (bell_day 1 1) = Ok v.
Proof.
  apply X18_evaluate_day_never_raises; discriminate.
Defined.

Lemma X19_gate_monotone_witness :
  exists rec,
    evaluate_day (tuned (30 * us_per_day))
      (get_clearskytemplate (Plain (bell_day 1 1)) (9 # 10)
         (Some 1%positive) (Some 1%positive)) (bell_day 1 1)
    = Ok (Some rec).
Proof.
  assert (exists rec,
             evaluate_day
               (set_min_number_of_datapoints (Some 6%Z)
                  (tuned (30 * us_per_day)))
               (get_clearskytemplate (Plain (bell_day 1 1)) (9 # 10)
                  (Some 1%positive) (Some 1%positive)) (bell_day 1 1)
             = Ok (Some rec)) as [rec E]
      by (eexists; vm_compute; reflexivity).
  exists rec.
  apply (X19_gate_monotone (tuned (30 * us_per_day))
           (set_min_number_of_datapoints (Some 6%Z) (tuned (30 * us_per_day)))
           _ _ rec 4 6 50 50 150 150 40 40);
    try reflexivity; try exact E; try lia; try apply Qle_refl.
Defined.

(** ** The whole run *)

Lemma for_each_ok {A S : Type} (body : A -> S -> result S) (I : S -> Prop)
  (l : list A) (s : S) :
  I s ->
  (forall a s0, In a l -> I s0 -> exists s1, body a s0 = Ok s1 /\ I s1) ->
  exists s', for_each body l s = Ok s' /\ I s'.
Proof.
  revert s. induction l as [|a l IH]; intros s Hs Hbody; simpl.
  - now exists s.
  - destruct (Hbody a s (or_introl eq_refl) Hs) as (s1 & -> & Hs1).
    cbn [bind]. apply IH; [exact Hs1|].
    intros a' s0 Ha'. apply Hbody. now right.
Qed.

Lemma window_loop_ok (c : config) (wins : list (list sample)) (fr : frames) :
  min_number_of_datapoints c <> None -> hole_size_threshold c <> None ->
  max_dist c <> None -> n_max_exceeds c <> None ->
  exists fr', for_each (window_body c) wins fr = Ok fr'.
Proof.
  intros Hm Hh Hd Hn.
  destruct (for_each_ok (window_body c) (fun _ => True) wins fr I)
    as (fr' & H & _); [|now exists fr'].
  intros month fr0 _ _. unfold window_body.
  destruct (for_each_ok
              (day_body c (get_clearskytemplate (Plain month) (percentil c)
                             (prep_smooth_kernal c) (smooth_kernal c)))
              (fun _ => True) (group_by_date month) fr0 I)
    as (fr1 & H1 & _); [|now exists fr1].
  intros day fr2 Hday _. unfold day_body.
  assert (day <> []) as Hne.
  { unfold group_by_date in Hday. apply group_rows in Hday.
    now destruct Hday as (d & _ & Hne). }
  destruct (evaluate_day_total c
              (get_clearskytemplate (Plain month) (percentil c)
                 (prep_smooth_kernal c) (smooth_kernal c)) day Hm Hh Hd Hn Hne)
    as (v & ->).
  cbn [bind]. destruct v; now eexists.
Qed.

(** With a gap threshold the run goes through. *)
Lemma clear_sky_days_ok (c : config) (data : list sample) :
  hole_size_threshold c <> None ->
  exists st, clear_sky_days c data = Ok st.
Proof.
  intros Hh. unfold clear_sky_days.
  destruct (for_each_ok stream_body
              (fun st => hole_size_threshold (fst st) <> None)
              (partition_by (with_default_id c data)) (c, []) Hh)
    as (st & H & _); [|now exists st].
  intros m [c0 fr0] Hm Hc0. cbn [fst] in Hc0.
  assert (m <> []) as Hne.
  { unfold partition_by in Hm. apply group_rows in Hm.
    now destruct Hm as (k & _ & Hne). }
  unfold stream_body. cbn [fst snd].
  assert (exists c1, set_defaults c0 m = Ok c1) as [c1 Hc1].
  { unfold set_defaults. cbv zeta.
    edestruct (default_max_dist_ok m) as (c2 & Hc2 & _); [exact Hne|].
    exists c2. exact Hc2. }
  rewrite Hc1. cbn [bind].
  destruct (set_defaults_fields _ _ _ Hc1)
    as (_ & (M & _ & _ & N & X) & _ & (_ & _ & K & _) & _).
  assert (hole_size_threshold c1 <> None) as Hh1.
  { destruct (hole_size_threshold c0) as [v|] eqn:E; [|congruence].
    rewrite (K v eq_refl). discriminate. }
  destruct (window_loop_ok c1 (windows c1 m) fr0 M Hh1 X N) as (fr1 & ->).
  cbn [bind]. eexists. split; [reflexivity | exact Hh1].
Qed.

(** X20: when the caller gives a gap threshold, the run never raises,
    whatever the data. *)
Theorem X20_run_never_raises (c : config) (data : list sample) :
  hole_size_threshold c <> None ->
  exists out, get_clearskydays c data = Ok out.
Proof.
  intros Hh. destruct (clear_sky_days_ok c data Hh) as (st & H).
  unfold get_clearskydays. rewrite H. cbn [bind]. now eexists.
Qed.

Lemma X20_run_never_raises_witness :
  exists out,
    get_clearskydays (tuned (30 * us_per_day)) (two_bells 1 7) = Ok out.
Proof. apply X20_run_never_raises. discriminate. Defined.

Lemma filter_disjoint_app {A : Type} (p q : A -> bool) (l : list A) :
  (forall a, In a l -> p a = true -> q a = false) ->
  Permutation (filter p l ++ filter q l) (filter (fun a => p a || q a) l).
Proof.
  induction l as [|a l IH]; intros H; simpl; [constructor|].
  assert (Permutation (filter p l ++ filter q l)
                      (filter (fun a => p a || q a) l)) as IH'.
  { apply IH. intros a' Ha'. apply H. now right. }
  destruct (p a) eqn:Ep; simpl.
  - rewrite (H a (or_introl eq_refl) Ep). now constructor.
  - destruct (q a); [|exact IH'].
    rewrite <- IH'. symmetry. apply Permutation_middle.
Qed.

Lemma in_distinct_Z (k : Z) (ks : list Z) :
  In k ks -> In k (distinct Z.eqb ks).
Proof.
  intros H.
  destruct (distinct_covers Z.eqb Z.eqb_refl
              (fun a b c' Hab Hbc =>
                 proj2 (Z.eqb_eq a c')
                       (eq_trans (proj1 (Z.eqb_eq a b) Hab)
                                 (proj1 (Z.eqb_eq b c') Hbc)))
              k ks H) as (k' & Hin & He).
  apply Z.eqb_eq in He. now subst.
Qed.

(** The groups of a frame hold every row once. *)
Lemma groups_partition {A : Type} (key : A -> Z) (l : list A) :
  Permutation (concat (map snd (group_by key Z.eqb l))) l.
Proof.
  rewrite groups_of_keys.
  assert (forall ks, NoDup ks ->
            Permutation
              (concat (map (fun k => filter (fun a => k =? key a)%Z l) ks))
              (filter (fun a => existsb (fun k => k =? key a)%Z ks) l)) as H.
  { induction 1 as [|k ks Hk Hnd IH]; simpl.
    - rewrite filter_none; [constructor|]. now apply Forall_forall.
    - rewrite IH. apply filter_disjoint_app.
      intros a _ Ha. apply Z.eqb_eq in Ha. subst k.
      destruct (existsb _ ks) eqn:E; [|reflexivity].
      apply existsb_exists in E. destruct E as (k' & Hk' & E).
      apply Z.eqb_eq in E. subst k'. contradiction. }
  rewrite (H _ (distinct_NoDup _)). rewrite filter_all; [reflexivity|].
  apply Forall_forall. intros a Ha. apply existsb_exists.
  exists (key a). split; [|apply Z.eqb_refl].
  apply in_distinct_Z. now apply in_map.
Qed.

Lemma concat_flat_map {A B : Type} (F : A -> list (list B)) (l : list A) :
  concat (flat_map F l) = flat_map (fun a => concat (F a)) l.
Proof.
  induction l as [|a l IH]; simpl; [reflexivity|].
  now rewrite concat_app, IH.
Qed.

Lemma Permutation_flat_map_pointwise {A B : Type} (f g : A -> list B)
  (l : list A) :
  (forall a, In a l -> Permutation (f a) (g a)) ->
  Permutation (flat_map f l) (flat_map g l).
Proof.
  induction l as [|a l IH]; intros H; simpl; [constructor|].
  apply Permutation_app; [apply H; now left|].
  apply IH. intros a' Ha'. apply H. now right.
Qed.

Lemma flat_map_id_concat {A : Type} (l : list (list A)) :
  flat_map (fun a => a) l = concat l.
Proof. induction l; simpl; congruence. Qed.

(** The days the loops visit hold every row of the input once. *)
Lemma days_partition (c : config) (data : list sample) :
  Permutation (concat (days_of c data)) (with_default_id c data).
Proof.
  unfold days_of. rewrite concat_flat_map.
  transitivity (flat_map (fun m => m) (partition_by (with_default_id c data))).
  - apply Permutation_flat_map_pointwise. intros m _.
    unfold days_of_stream. rewrite concat_flat_map.
    transitivity (flat_map (fun w => w) (windows c m)).
    + apply Permutation_flat_map_pointwise. intros w _.
      unfold group_by_date. apply groups_partition.
    + rewrite flat_map_id_concat. unfold windows, group_by_dynamic.
      rewrite groups_partition. apply sort_perm.
  - rewrite flat_map_id_concat. unfold partition_by. apply groups_partition.
Qed.

(** X21: the days the loops visit partition the input: every row of the
    (id-completed) input lies in exactly one (stream, window, date)
    group. *)
Theorem X21_days_partition_input (c : config) (data : list sample) :
  Permutation (concat (days_of c data)) (with_default_id c data).
Proof. apply days_partition. Qed.

Lemma picks_sub_multiset {A B : Type} (V : list A -> B -> Prop)
  (f : B -> list A) (l : list (list A)) (rs : list B) :
  (forall a r, V a r -> Permutation (f r) a) ->
  picks V l rs ->
  exists rest, Permutation (concat (map f rs) ++ rest) (concat l).
Proof.
  intros HV. induction 1 as [|a l rs H IH|a l r rs Hv H IH]; simpl.
  - now exists [].
  - destruct IH as (rest & IH). exists (a ++ rest).
    rewrite <- IH. rewrite !app_assoc.
    apply Permutation_app_tail, Permutation_app_comm.
  - destruct IH as (rest & IH). exists rest.
    rewrite <- app_assoc, IH. apply Permutation_app_tail. now apply HV.
Qed.

(** X22: the rows of the result are rows of the input, each returned at
    most once: with their two added columns removed they form a
    sub-multiset of the (id-completed) input. *)
Theorem X22_result_sub_multiset (c : config) (data : list sample)
  (out : list clear_sky_row) :
  get_clearskydays c data = Ok out ->
  exists rest,
    Permutation (map (fun r => base (row r)) out ++ rest)
                (with_default_id c data).
Proof.
  unfold get_clearskydays.
  destruct (clear_sky_days c data) as [st|e] eqn:E; cbn [bind]; [|discriminate].
  intros [= <-]. apply clear_sky_days_picks in E.
  destruct (picks_sub_multiset accepts (map (fun r => base (row r)))
              (days_of c data) (snd st)) as (rest & Hp).
  - intros g rec Ha. destruct (accepted_rows _ _ Ha) as (v & -> & _).
    rewrite map_map. cbn [row base]. rewrite (sort_perm by_day_time).
    cbn [add_daytime]. rewrite map_map. cbn [stamp base]. now rewrite map_id.
  - exact E.
  - exists rest. rewrite concat_map. rewrite Hp.
    apply days_partition.
Qed.

Lemma X22_result_sub_multiset_witness :
  exists out rest,
    get_clearskydays (tuned (30 * us_per_day)) (bell_day 1 1 ++ bell_day 2 1)
    = Ok out /\
    Permutation (map (fun r => base (row r)) out ++ rest)
      (with_default_id (tuned (30 * us_per_day))
         (bell_day 1 1 ++ bell_day 2 1)).
Proof.
  assert (exists out,
             get_clearskydays (tuned (30 * us_per_day))
               (bell_day 1 1 ++ bell_day 2 1) = Ok out) as [out E]
      by (eexists; vm_compute; reflexivity).
  destruct (X22_result_sub_multiset _ _ _ E) as (rest & H).
  exists out, rest. split; [exact E | exact H].
Defined.

(** X23: without an id column the whole input is processed as one
    stream. *)
Theorem X23_no_id_column_single_stream (c : config) (data : list sample) :
  use_column_id c = false -> data <> [] ->
  partition_by (with_default_id c data) = [with_default_id c data].
Proof.
  intros Hu Hne. unfold partition_by.
  rewrite (group_by_constant module_id 0%Z); [reflexivity| |].
  - unfold with_default_id. rewrite Hu. destruct data; [congruence|discriminate].
  - apply Forall_forall. intros s Hs. exact (default_id_rows c data s Hu Hs).
Qed.

Lemma X23_no_id_column_witness :
  partition_by
    (with_default_id
       (mkConfig (30 * us_per_day) None None (9 # 10) (1 # 10) None None
       (98 # 100) None None false)
       (bell_day 1 1 ++ bell_day 2 2))
  = [with_default_id
       (mkConfig (30 * us_per_day) None None (9 # 10) (1 # 10) None None
       (98 # 100) None None false)
       (bell_day 1 1 ++ bell_day 2 2)].
Proof. apply X23_no_id_column_single_stream; [reflexivity | discriminate]. Defined.

(** ** Streams coarser than the frequency table *)

Lemma fle_false_below (f : float) (q : Q) :
  fle f 15 = false -> q <= 15 -> fle f q = false.
Proof.
  destruct f as [|x]; [reflexivity|]. simpl. intros H Hq.
  destruct (Qle_bool x q) eqn:E; [|reflexivity].
  apply Qle_bool_iff in E.
  assert (Qle_bool x 15 = true) as H'
      by (apply Qle_bool_iff; eapply Qle_trans; eauto).
  congruence.
Qed.

Lemma hole_block_coarse (f : float) (c : config) :
  hole_size_threshold c = None -> fle f 15 = false ->
  default_hole_size_threshold f c = set_min_number_of_datapoints (Some 120%Z) c.
Proof.
  intros H Hf. unfold default_hole_size_threshold. rewrite H. cbn [is_None].
  rewrite (fle_false_below f 1), (fle_false_below f 5),
    (fle_false_below f 10), Hf by (assumption || discriminate).
  now rewrite !andb_false_r.
Qed.

Lemma set_defaults_coarse (c c1 : config) (m : list sample) :
  hole_size_threshold c = None -> fle (frequence_of m) 15 = false ->
  set_defaults c m = Ok c1 ->
  min_number_of_datapoints c1 = Some 120%Z /\
  hole_size_threshold c1 = None /\
  comparison_intervall c1 = comparison_intervall c /\
  first_last_limit c1 = first_last_limit c.
Proof.
  intros Hh Hf H.
  destruct (set_defaults_fields _ _ _ H)
    as ((Hci & _ & Hfl & _) & _ & Hiff & _).
  split; [|split; [apply Hiff; now split | now split]].
  unfold set_defaults in H. cbv zeta in H.
  rewrite hole_block_coarse in H
    by (assumption
        || now rewrite hole_after_smooth, hole_after_prep, hole_after_min).
  unfold default_max_dist in H.
  destruct (is_None _); [destruct (np_max _); [|discriminate]|];
    cbn [bind] in H; injection H as <-;
    unfold set_max_dist; cbn [min_number_of_datapoints];
    now rewrite ?min_after_exceeds.
Qed.

(** The verdict on a day while the gap threshold is unset. *)
Lemma evaluate_day_coarse (c : config) (cst : list template_row)
  (day : list sample) (min_points : Z) :
  hole_size_threshold c = None ->
  min_number_of_datapoints c = Some min_points ->
  (4 <= min_points)%Z ->
  (reaches_gap_check min_points (first_last_limit c) day /\
   evaluate_day c cst day = Raise TypeError) \/
  (~ reaches_gap_check min_points (first_last_limit c) day /\
   evaluate_day c cst day = Ok None).
Proof.
  intros Hh Hm H4. unfold evaluate_day, reaches_gap_check. rewrite Hm.
  cbn [required bind].
  destruct (Z.gtb_spec (Z.of_nat (List.length day)) min_points) as [Hlen|Hlen].
  2:{ right. split; [|reflexivity]. intros (f & l & Hgt & _). lia. }
  set (day_data := sort by_day_time (add_daytime (Plain day))).
  assert (List.length day_data = List.length day) as Hl.
  { unfold day_data. cbn [add_daytime]. now rewrite length_sort, length_map. }
  destruct (first_item day_data) as [first|e] eqn:Ef.
  2:{ unfold first_item in Ef. destruct day_data; [|discriminate].
      simpl in Hl. lia. }
  destruct (last_item day_data) as [last|e] eqn:El.
  2:{ unfold last_item, first_item in El.
      destruct (rev day_data) eqn:E; [|discriminate].
      apply (f_equal (@List.length timed)) in E. rewrite length_rev in E.
      simpl in E. lia. }
  cbn [bind].
  destruct (Qle_bool (power (base first)) (first_last_limit c)) eqn:E1;
    [destruct (Qle_bool (power (base last)) (first_last_limit c)) eqn:E2|];
    cbn [andb].
  - left. split.
    + exists first, last. apply Qle_bool_iff in E1, E2.
      repeat split; [lia | exact E1 | exact E2].
    + unfold _bad_holes_check. rewrite Hh. cbn [add_daytime].
      set (array := map day_time (sort by_day_time day_data)).
      assert (List.length array = List.length day) as Ha.
      { unfold array. now rewrite length_map, length_sort. }
      destruct (Nat.ltb_spec 4 (List.length array)) as [L|L]; [|lia].
      assert (diffs array <> []) as Hd.
      { intros E. apply (f_equal (@List.length Q)) in E.
        rewrite length_diffs in E. simpl in E. lia. }
      destruct (np_max_spec _ Hd) as (mh & -> & _). reflexivity.
  - right. split; [|reflexivity].
    intros (f & l & _ & _ & [= <-] & _ & H2).
    apply Qle_bool_iff in H2. congruence.
  - right. split; [|reflexivity].
    intros (f & l & _ & [= <-] & _ & H1 & _).
    apply Qle_bool_iff in H1. congruence.
Qed.

(** A loop whose body either raises or keeps an invariant. *)
Lemma for_each_raise_iff {A S : Type} (body : A -> S -> result S)
  (I : S -> Prop) (P : A -> Prop) (e : exn) (l : list A) (s : S) :
  I s ->
  (forall a s0, In a l -> I s0 ->
     (P a /\ body a s0 = Raise e) \/
     (~ P a /\ exists s1, body a s0 = Ok s1 /\ I s1)) ->
  (Exists P l /\ for_each body l s = Raise e) \/
  (~ Exists P l /\ exists s', for_each body l s = Ok s' /\ I s').
Proof.
  revert s. induction l as [|a l IH]; intros s Hs Hbody.
  - right. split; [intros H; inversion H | now exists s].
  - cbn [for_each].
    destruct (Hbody a s (or_introl eq_refl) Hs)
      as [(Pa & ->) | (nPa & s1 & -> & Hs1)]; cbn [bind].
    + left. split; [now constructor | reflexivity].
    + destruct (IH s1 Hs1) as [(Hex & E) | (Hnex & E)].
      * intros a' s0 Ha'. apply Hbody. now right.
      * left. split; [now apply Exists_cons_tl | exact E].
      * right. split; [|exact E].
        intros H. inversion H; subst; contradiction.
Qed.

Lemma window_body_coarse (c : config) (month_data : list sample) :
  hole_size_threshold c = None ->
  min_number_of_datapoints c = Some 120%Z ->
  (Exists (reaches_gap_check 120 (first_last_limit c))
          (group_by_date month_data) /\
   window_body c month_data [] = Raise TypeError) \/
  (~ Exists (reaches_gap_check 120 (first_last_limit c))
            (group_by_date month_data) /\
   window_body c month_data [] = Ok []).
Proof.
  intros Hh Hm. unfold window_body.
  set (cst := get_clearskytemplate _ _ _ _).
  destruct (for_each_raise_iff (day_body c cst) (fun fr => fr = [])
              (reaches_gap_check 120 (first_last_limit c)) TypeError
              (group_by_date month_data) [] eq_refl)
    as [H | (Hn & fr & E & ->)]; [|left; exact H|right; now split].
  intros day fr _ ->. unfold day_body.
  destruct (evaluate_day_coarse c cst day 120 Hh Hm ltac:(lia))
    as [(Hp & ->) | (Hn & ->)]; cbn [bind].
  - left. now split.
  - right. split; [exact Hn | now exists []].
Qed.

Lemma stream_body_coarse (c c0 : config) (m : list sample) :
  m <> [] -> fle (frequence_of m) 15 = false ->
  hole_size_threshold c0 = None ->
  comparison_intervall c0 = comparison_intervall c ->
  first_last_limit c0 = first_last_limit c ->
  (Exists (reaches_gap_check 120 (first_last_limit c)) (days_of_stream c m) /\
   stream_body m (c0, []) = Raise TypeError) \/
  (~ Exists (reaches_gap_check 120 (first_last_limit c)) (days_of_stream c m) /\
   exists c1, stream_body m (c0, []) = Ok (c1, []) /\
              hole_size_threshold c1 = None /\
              comparison_intervall c1 = comparison_intervall c /\
              first_last_limit c1 = first_last_limit c).
Proof.
  intros Hne Hf Hh Hci Hfl. unfold stream_body. cbn [fst snd].
  assert (exists c1, set_defaults c0 m = Ok c1) as [c1 Hc1].
  { unfold set_defaults. cbv zeta.
    edestruct (default_max_dist_ok m) as (c2 & Hc2 & _); [exact Hne|].
    exists c2. exact Hc2. }
  rewrite Hc1. cbn [bind].
  destruct (set_defaults_coarse _ _ _ Hh Hf Hc1) as (Hm1 & Hh1 & Hci1 & Hfl1).
  assert (windows c1 m = windows c m) as ->.
  { unfold windows. now rewrite Hci1, Hci. }
  unfold days_of_stream. rewrite Exists_flat_map.
  destruct (for_each_raise_iff (window_body c1) (fun fr => fr = [])
              (fun w => Exists (reaches_gap_check 120 (first_last_limit c))
                               (group_by_date w))
              TypeError (windows c m) [] eq_refl)
    as [(Hex & ->) | (Hn & fr & -> & ->)].
  - intros w fr _ ->. rewrite <- Hfl, <- Hfl1.
    destruct (window_body_coarse c1 w Hh1 Hm1) as [H | (Hn & E)];
      [left; exact H | right].
    split; [exact Hn | now exists []].
  - left. now split.
  - right. split; [exact Hn|]. exists c1. cbn [bind].
    split; [reflexivity|]. split; [exact Hh1|].
    split; congruence.
Qed.

(** X24: while the gap threshold is unset and every stream is sampled more
    coarsely than the frequency table covers (compared frequency NaN or
    above 15), the run never returns a day.  It raises a type error if some
    day has more than 120 samples and starts and ends within
    [first_last_limit], and returns the empty frame otherwise, whatever
    [min_number_of_datapoints] the caller gave. *)
Theorem X24_coarse_streams_return_no_day (c : config) (data : list sample) :
  hole_size_threshold c = None ->
  Forall (fun m => fle (frequence_of m) 15 = false)
         (partition_by (with_default_id c data)) ->
  (Exists (reaches_gap_check 120 (first_last_limit c)) (days_of c data) /\
   get_clearskydays c data = Raise TypeError) \/
  (~ Exists (reaches_gap_check 120 (first_last_limit c)) (days_of c data) /\
   get_clearskydays c data = Ok []).
Proof.
  intros Hh Hall. unfold get_clearskydays, clear_sky_days, days_of.
  rewrite Exists_flat_map.
  destruct (for_each_raise_iff stream_body
              (fun st => snd st = [] /\ hole_size_threshold (fst st) = None /\
                         comparison_intervall (fst st) = comparison_intervall c /\
                         first_last_limit (fst st) = first_last_limit c)
              (fun m => Exists (reaches_gap_check 120 (first_last_limit c))
                               (days_of_stream c m))
              TypeError (partition_by (with_default_id c data)) (c, []))
    as [(Hex & ->) | (Hn & st & -> & Hfr & _)].
  - now repeat split.
  - intros m [c0 fr] Hm (Hfr & Hh0 & Hci & Hfl). cbn [fst snd] in *. subst fr.
    assert (m <> []) as Hne.
    { unfold partition_by in Hm. apply group_rows in Hm.
      now destruct Hm as (k & _ & Hne). }
    rewrite Forall_forall in Hall.
    destruct (stream_body_coarse c c0 m Hne (Hall m Hm) Hh0 Hci Hfl)
      as [H | (Hn & c1 & E & Hh1 & Hci1 & Hfl1)]; [left; exact H | right].
    split; [exact Hn|]. exists (c1, []). now repeat split.
  - left. now split.
  - right. split; [exact Hn|]. cbn [bind]. now rewrite Hfr.
Qed.

Lemma X24_coarse_streams_witness :
  (Exists (reaches_gap_check 120 (first_last_limit unset))
          (days_of unset (bell_day 1 1 ++ bell_day 2 2)) /\
   get_clearskydays unset (bell_day 1 1 ++ bell_day 2 2) = Raise TypeError) \/
  (~ Exists (reaches_gap_check 120 (first_last_limit unset))
            (days_of unset (bell_day 1 1 ++ bell_day 2 2)) /\
   get_clearskydays unset (bell_day 1 1 ++ bell_day 2 2) = Ok []).
Proof.
  apply X24_coarse_streams_return_no_day; [reflexivity|].
  repeat constructor.
Defined.
